(** * build_collections_db: fetch, transform, load

    A shallow embedding of [scripts/utils/build_collections_db.py] and the
    properties of its three stages.  Python values, the regular-expression
    repair of [html_to_markdown], the SQLite statements issued by
    [create_database] and the HTTP exchange of [fetch_collections] are
    modelled as the script uses them; the HTML-to-markdown converter and the
    engine's text coercions are external and enter as parameters. *)

From Stdlib Require Import ZArith NArith Ascii String.
From Equations Require Import Equations.
From stdpp Require Import gmap list.
Set Warnings "-register-all".

(** ** Python strings *)

(** A Python [str] is a sequence of Unicode code points. *)
Abbreviation str := (list N).

(** Code points of an ASCII literal. *)
Definition lit (s : string) : str :=
  map N_of_ascii (list_ascii_of_string s).

(** The double quote character. *)
Definition QUOTE : N := 34%N.

(** [str.isspace] on one code point (CPython's [_PyUnicode_IsWhitespace]). *)
Definition is_space (c : N) : bool :=
  ((9 <=? c) && (c <=? 13) || (28 <=? c) && (c <=? 32)
   || (c =? 133) || (c =? 160) || (c =? 5760)
   || (8192 <=? c) && (c <=? 8202)
   || (c =? 8232) || (c =? 8233) || (c =? 8239) || (c =? 8287)
   || (c =? 12288))%N.

Fixpoint lstrip (s : str) : str :=
  match s with
  | c :: t => if is_space c then lstrip t else s
  | [] => []
  end.

(** [s.strip()] *)
Definition strip (s : str) : str := rev (lstrip (rev (lstrip s))).

(** [p] occurs in [l] as a run of consecutive elements. *)
Fixpoint occurs_in {A} `{EqDecision A} (p l : list A) : bool :=
  match l with
  | [] => bool_decide (p = [])
  | _ :: l' => bool_decide (take (length p) l = p) || occurs_in p l'
  end.

(** Decimal digits of a natural number, most significant first. *)
Fixpoint digits_fuel (fuel : nat) (n : N) (acc : str) : str :=
  match fuel with
  | O => acc
  | S fuel' =>
      let acc' := (48 + n mod 10)%N :: acc in
      if (n <? 10)%N then acc' else digits_fuel fuel' (n / 10)%N acc'
  end.

(** [str(z)] for an integer, which is also the text form SQLite gives it. *)
Definition decimal (z : Z) : str :=
  let n := Z.to_N (Z.abs z) in
  let ds := digits_fuel (S (N.to_nat (N.log2 n))) n [] in
  if (z <? 0)%Z then 45%N :: ds else ds.

(** ** The regular expression of [html_to_markdown]

    The call is [re.sub(pattern, template, html)].  Writing Q for the double
    quote character, the pattern is [href=QQ url=Q([^Q]+)Q] and the template
    is [href=Q\1Q]. *)

Module Re.

(** The literal head of the pattern, [href=QQ url=Q]. *)
Definition PATTERN_HEAD : str :=
  lit "href=" ++ [QUOTE; QUOTE] ++ lit " url=" ++ [QUOTE].

(** The template [href=Q\1Q] instantiated with the text of group 1. *)
Definition replacement (group1 : str) : str :=
  lit "href=" ++ [QUOTE] ++ group1 ++ [QUOTE].

(** [drop_prefix p s] is what follows [p] when [s] starts with [p]. *)
Fixpoint drop_prefix (p s : str) : option str :=
  match p, s with
  | [], _ => Some s
  | a :: p', b :: s' => if (a =? b)%N then drop_prefix p' s' else None
  | _ :: _, [] => None
  end.

(** The longest run of characters other than the quote, and what follows it. *)
Fixpoint span_not_quote (s : str) : str * str :=
  match s with
  | c :: t =>
      if (c =? QUOTE)%N then ([], s)
      else let '(x, r) := span_not_quote t in (c :: x, r)
  | [] => ([], [])
  end.

(** An anchored match of the whole pattern at the start of [s]: the text
    of group 1 and the input after the match.  The greedy run must be
    non-empty and must be followed by the closing quote; backtracking to
    a shorter run cannot help because the character after a shorter run
    is not a quote. *)
Definition match_at (s : str) : option (str * str) :=
  match drop_prefix PATTERN_HEAD s with
  | Some r =>
      match span_not_quote r with
      | (c :: x, _ :: rest) => Some (c :: x, rest)
      | _ => None
      end
  | None => None
  end.

Definition inspect {A} (a : A) : {b : A | a = b} := exist _ a eq_refl.

(** The substitution: scan from the left; where the pattern matches, emit
    the replacement and resume after the match, otherwise copy one
    character and move on by one. *)
Equations? sub (s : str) : str by wf (length s) lt :=
  sub [] := [];
  sub (c :: t) with inspect (match_at (c :: t)) := {
    | exist _ (Some (x, rest)) _ := replacement x ++ sub rest;
    | exist _ None _ := c :: sub t }.
Proof.
- assert (Hd : forall p u r,
    drop_prefix p u = Some r -> length u = length p + length r).
  { clear. intros p. induction p as [|a p IH]; intros u r; simpl.
    - intros [= <-]. reflexivity.
    - destruct u as [|b u]; [congruence|].
      destruct (a =? b)%N; [|congruence]. intros H. simpl. rewrite (IH _ _ H). lia. }
  assert (Hs : forall u,
    length u = length (span_not_quote u).1 + length (span_not_quote u).2).
  { clear. intros u. induction u as [|a u IH]; simpl; [reflexivity|].
    destruct (a =? QUOTE)%N; simpl; [reflexivity|].
    destruct (span_not_quote u) as [y r]; simpl in *. lia. }
  match goal with H : match_at _ = Some _ |- _ => revert H end.
  unfold match_at. destruct (drop_prefix _ (c :: t)) as [r|] eqn:Hp; [|congruence].
  apply Hd in Hp. specialize (Hs r).
  destruct (span_not_quote r) as [[|a y] [|q rest']]; try congruence.
  intros [= <- <-]. simpl in *. lia.
- simpl; lia.
Qed.

(** What the pattern matches at the start of [s], stated on the text: the
    head, then a non-empty group without a quote, then a quote. *)
Definition matches (s x rest : str) : Prop :=
  s = PATTERN_HEAD ++ x ++ QUOTE :: rest /\ x <> [] /\ QUOTE ∉ x.

(** The substitution as a relation between input and output: the leftmost
    match is replaced and the scan resumes after it; a character at which
    nothing matches is copied. *)
Inductive subst : str -> str -> Prop :=
| subst_nil : subst [] []
| subst_hit s x rest out :
    matches s x rest -> subst rest out -> subst s (replacement x ++ out)
| subst_skip c t out :
    (forall x rest, ~ matches (c :: t) x rest) ->
    subst t out -> subst (c :: t) (c :: out).

(** A text that ends inside a match still to be completed: the pattern head
    followed by characters of the group, the closing quote not yet seen. *)
Definition open_at_end (pre : str) : Prop :=
  exists u x, pre = u ++ PATTERN_HEAD ++ x /\ QUOTE ∉ x.

End Re.

(** ** Python values, exceptions and results *)

(** The values [response.json()] can produce.  A float is kept as the bit
    pattern of its IEEE-754 binary64 representation; the script never
    computes with one. *)
Inductive pyval :=
| PNone
| PBool (b : bool)
| PInt (z : Z)
| PFloat (bits : Z)
| PStr (s : str)
| PList (items : list pyval)
| PDict (entries : gmap str pyval).

(** The exceptions that can leave the script. *)
Inductive exn :=
| ConnectError
| TimeoutException
| HTTPStatusError (status : Z)
| JSONDecodeError
| KeyError
| IndexError
| TypeError
| AttributeError
| ConverterError
| OSError
| DatabaseError
| OperationalError
| IntegrityError
| ProgrammingError
| OverflowError
| UnicodeEncodeError.

Inductive result (A : Type) :=
| Ok (a : A)
| Raised (e : exn).
Arguments Ok {A} a.
Arguments Raised {A} e.

#[global] Instance result_ret : MRet result := fun A a => Ok a.
#[global] Instance result_bind : MBind result := fun A B f r =>
  match r with
  | Ok a => f a
  | Raised e => Raised e
  end.

(** [bool(v)]: the truth value that [not v] negates. *)
Definition py_truthy (v : pyval) : bool :=
  match v with
  | PNone => false
  | PBool b => b
  | PInt z => negb (z =? 0)%Z
  | PFloat bits => negb (bits mod 2 ^ 63 =? 0)%Z
  | PStr s => match s with [] => false | _ :: _ => true end
  | PList items => match items with [] => false | _ :: _ => true end
  | PDict entries => match map_to_list entries with [] => false | _ :: _ => true end
  end.

(** [coll.get(key, default)]: among the values above only a dict has [get]. *)
Definition dict_get (coll : pyval) (key : str) (default : pyval) : result pyval :=
  match coll with
  | PDict entries => Ok (from_option id default (entries !! key))
  | _ => Raised AttributeError
  end.

(** [data[key]] with a string key. *)
Definition py_getitem (data : pyval) (key : str) : result pyval :=
  match data with
  | PDict entries =>
      match entries !! key with
      | Some v => Ok v
      | None => Raised KeyError
      end
  | _ => Raised TypeError
  end.

(** [len(v)] *)
Definition py_len (v : pyval) : result nat :=
  match v with
  | PStr s => Ok (length s)
  | PList items => Ok (length items)
  | PDict entries => Ok (size entries)
  | _ => Raised TypeError
  end.

(** The items a [for] loop over [v] visits. *)
Definition py_iter (v : pyval) : result (list pyval) :=
  match v with
  | PList items => Ok items
  | PStr s => Ok (map (fun c => PStr [c]) s)
  | PDict entries => Ok (map (fun kv => PStr kv.1) (map_to_list entries))
  | _ => Raised TypeError
  end.

(** ** The transformer *)

(** The converter [markdownify.markdownify(html, strip=...)] is a library
    outside the script: a function of the tag names to strip and the HTML
    text which returns a string or raises. *)
Class Converter := markdownify : list str -> str -> result str.

(** [html_to_markdown(html)] *)
Definition html_to_markdown `{Converter} (html : pyval) : result str :=
  if negb (py_truthy html) then Ok []
  else
    match html with
    | PStr s =>
        let html' := Re.sub s in
        md ← markdownify [lit "i"] html';
        Ok (strip md)
    | _ => Raised TypeError
    end.

(** [html_to_markdown] line by line, as a relation between the argument
    and the outcome of the call. *)
Inductive runs `{Converter} : pyval -> result str -> Prop :=
| runs_falsy html :
    py_truthy html = false -> runs html (Ok [])
| runs_not_text html :
    py_truthy html = true -> (forall s, html <> PStr s) ->
    runs html (Raised TypeError)
| runs_converted s html' md :
    py_truthy (PStr s) = true -> Re.subst s html' ->
    markdownify [lit "i"] html' = Ok md ->
    runs (PStr s) (Ok (strip md))
| runs_converter_raises s html' e :
    py_truthy (PStr s) = true -> Re.subst s html' ->
    markdownify [lit "i"] html' = Raised e ->
    runs (PStr s) (Raised e).

(** *** Anchor tags as text *)

(** An attribute written [name=QvalueQ], Q the double quote. *)
Definition attribute (name value : str) : str :=
  name ++ lit "=" ++ [QUOTE] ++ value ++ [QUOTE].

(** The opening tag of an anchor with the given attributes, in order. *)
Definition anchor_open (attrs : list (str * str)) : str :=
  lit "<a" ++ concat (map (fun a => lit " " ++ attribute a.1 a.2) attrs) ++ lit ">".

(** ** The SQLite engine, as the script drives it *)

Module Sqlite.

(** Stored values.  No statement of the script produces a BLOB. *)
Inductive sqlval :=
| SqlNull
| SqlInt (z : Z)
| SqlReal (bits : Z)
| SqlText (s : str).

#[global] Instance sqlval_eq_dec : EqDecision sqlval.
Proof. solve_decision. Defined.

(** A row of [collections]. *)
Record coll_row := {
  rowid : Z;
  collection_id : sqlval;
  cancer_type : sqlval;
  location : sqlval;
  species : sqlval;
  subject_count : sqlval;
  date_updated : sqlval;
  doi : sqlval;
  image_types : sqlval;
  supporting_data : sqlval;
  description : sqlval
}.

(** An entry of the full-text index: the rowid it was inserted under and
    the seven indexed column values. *)
Record fts_entry := {
  fts_rowid : Z;
  fts_columns : list sqlval
}.

#[global] Instance fts_entry_eq_dec : EqDecision fts_entry.
Proof. solve_decision. Defined.

(** The column list shared by the bulk population and the trigger bodies:
    rowid, collection_id, cancer_type, location, species, image_types,
    supporting_data, description. *)
Definition fts_projection (r : coll_row) : fts_entry :=
  {| fts_rowid := rowid r;
     fts_columns := [collection_id r; cancer_type r; location r; species r;
                     image_types r; supporting_data r; description r] |}.

(** Triggers on [collections]: when they fire, and what their bodies do to
    [collections_fts] with the new or the old row. *)
Inductive trigger_event := AfterInsert | AfterDelete | AfterUpdate.

#[global] Instance trigger_event_eq_dec : EqDecision trigger_event.
Proof. solve_decision. Defined.

Inductive row_ref := NewRow | OldRow.

Inductive trigger_action :=
| FtsInsert (r : row_ref)
| FtsDelete (r : row_ref).

Record trigger := {
  trigger_name : str;
  fires : trigger_event;
  body : list trigger_action
}.

(** A database: its three relations, each absent until created, and its
    triggers. *)
Record database := {
  metadata : option (list (sqlval * sqlval));
  collections : option (list coll_row);
  collections_fts : option (list fts_entry);
  triggers : list trigger
}.

Definition empty_database : database :=
  {| metadata := None; collections := None; collections_fts := None;
     triggers := [] |}.

Definition set_metadata (t : list (sqlval * sqlval)) (db : database) :=
  {| metadata := Some t; collections := collections db;
     collections_fts := collections_fts db; triggers := triggers db |}.
Definition set_collections (t : list coll_row) (db : database) :=
  {| metadata := metadata db; collections := Some t;
     collections_fts := collections_fts db; triggers := triggers db |}.
Definition set_fts (t : list fts_entry) (db : database) :=
  {| metadata := metadata db; collections := collections db;
     collections_fts := Some t; triggers := triggers db |}.
Definition add_trigger (t : trigger) (db : database) :=
  {| metadata := metadata db; collections := collections db;
     collections_fts := collections_fts db; triggers := triggers db ++ [t] |}.

(** A statement that names a relation fails when the relation is absent. *)
Definition relation {A} (t : option A) : result A :=
  match t with
  | Some a => Ok a
  | None => Raised OperationalError
  end.

(** What the engine does outside the statements themselves: how a REAL
    reads as TEXT, what INTEGER affinity makes of a value, which code
    points the full-text tokenizer keeps inside a token and how it folds
    them, and how large the file of a database is. *)
Class Engine := {
  text_of_real : Z -> str;
  integer_affinity : sqlval -> sqlval;
  is_token_char : N -> bool;
  fold_char : N -> N;
  file_size : database -> N
}.

(** Code points that UTF-8 cannot encode (lone surrogates). *)
Definition is_surrogate (c : N) : bool := ((55296 <=? c) && (c <=? 57343))%N.

(** A binary64 bit pattern that is a NaN: all exponent bits set and a
    non-zero fraction. *)
Definition is_nan (bits : Z) : bool :=
  (((bits / 2 ^ 52) mod 2 ^ 11 =? 2047) && negb (bits mod 2 ^ 52 =? 0))%Z.

(** The adapter from a Python parameter to a bound value.  The engine
    binds a NaN as NULL. *)
Definition bind_param (v : pyval) : result sqlval :=
  match v with
  | PNone => Ok SqlNull
  | PBool b => Ok (SqlInt (if b then 1 else 0))
  | PInt z =>
      if ((- 2 ^ 63 <=? z) && (z <? 2 ^ 63))%Z then Ok (SqlInt z)
      else Raised OverflowError
  | PFloat bits => if is_nan bits then Ok SqlNull else Ok (SqlReal bits)
  | PStr s =>
      if existsb is_surrogate s then Raised UnicodeEncodeError
      else Ok (SqlText s)
  | PList _ | PDict _ => Raised ProgrammingError
  end.

(** TEXT affinity: numbers are stored in their text form. *)
Definition text_affinity `{Engine} (v : sqlval) : sqlval :=
  match v with
  | SqlNull => SqlNull
  | SqlInt z => SqlText (decimal z)
  | SqlReal bits => SqlText (text_of_real bits)
  | SqlText s => SqlText s
  end.

(** The ten parameters of the INSERT into [collections], by column. *)
Record coll_params := {
  p_collection_id : pyval;
  p_cancer_type : pyval;
  p_location : pyval;
  p_species : pyval;
  p_subject_count : pyval;
  p_date_updated : pyval;
  p_doi : pyval;
  p_image_types : pyval;
  p_supporting_data : pyval;
  p_description : pyval
}.

(** The statements of [create_database]. *)
Inductive stmt :=
| CreateTableMetadata
| InsertMetadata (key value : pyval)
| CreateTableCollections
| CreateVirtualTableFts
| InsertCollection (params : coll_params)
| PopulateFts
| CreateTrigger (t : trigger)
| SelectCountCollections.

(** The rowid given to a new row: one more than the largest in use. *)
Definition next_rowid (rows : list coll_row) : Z :=
  (1 + foldr (fun r m => Z.max (rowid r) m) 0 rows)%Z.

(** A PRIMARY KEY on a column of an ordinary rowid table is a UNIQUE
    constraint: a NULL key is accepted and equals no other key. *)
Definition key_conflict {R} (key_of : R -> sqlval) (k : sqlval) (rows : list R) : bool :=
  match k with
  | SqlNull => false
  | _ => existsb (fun r => bool_decide (key_of r = k)) rows
  end.

(** Removal of one index entry equal to [e], as the delete command of the
    index does. *)
Fixpoint remove_entry (e : fts_entry) (idx : list fts_entry) : list fts_entry :=
  match idx with
  | [] => []
  | e' :: idx' => if bool_decide (e' = e) then idx' else e' :: remove_entry e idx'
  end.

(** One action of a trigger body. *)
Definition run_action (old new : option coll_row) (a : trigger_action)
    (db : database) : result database :=
  let pick r := relation (match r with NewRow => new | OldRow => old end) in
  match a with
  | FtsInsert r =>
      row ← pick r;
      idx ← relation (collections_fts db);
      Ok (set_fts (idx ++ [fts_projection row]) db)
  | FtsDelete r =>
      row ← pick r;
      idx ← relation (collections_fts db);
      Ok (set_fts (remove_entry (fts_projection row) idx) db)
  end.

Definition run_actions (old new : option coll_row) (acts : list trigger_action)
    (db : database) : result database :=
  foldl (fun acc a => db' ← acc; run_action old new a db') (Ok db) acts.

(** Every trigger registered for the event runs its body. *)
Definition fire (ev : trigger_event) (old new : option coll_row)
    (db : database) : result database :=
  foldl (fun acc t =>
           db' ← acc;
           if bool_decide (fires t = ev) then run_actions old new (body t) db'
           else Ok db')
        (Ok db) (triggers db).

(** The row an INSERT into [collections] stores under [rid]: each
    parameter is bound in turn and takes the affinity of its column. *)
Definition bind_row `{Engine} (p : coll_params) (rid : Z) : result coll_row :=
  v1 ← bind_param (p_collection_id p);
  v2 ← bind_param (p_cancer_type p);
  v3 ← bind_param (p_location p);
  v4 ← bind_param (p_species p);
  v5 ← bind_param (p_subject_count p);
  v6 ← bind_param (p_date_updated p);
  v7 ← bind_param (p_doi p);
  v8 ← bind_param (p_image_types p);
  v9 ← bind_param (p_supporting_data p);
  v10 ← bind_param (p_description p);
  Ok {| rowid := rid;
        collection_id := text_affinity v1;
        cancer_type := text_affinity v2;
        location := text_affinity v3;
        species := text_affinity v4;
        subject_count := integer_affinity v5;
        date_updated := text_affinity v6;
        doi := text_affinity v7;
        image_types := text_affinity v8;
        supporting_data := text_affinity v9;
        description := text_affinity v10 |}.

(** The INSERT into [collections]: the row is built, its key checked, the
    row appended under a fresh rowid, and the AFTER INSERT triggers run
    with the new row. *)
Definition insert_collection `{Engine} (p : coll_params) (db : database)
    : result database :=
  rows ← relation (collections db);
  row ← bind_row p (next_rowid rows);
  if key_conflict collection_id (collection_id row) rows
  then Raised IntegrityError
  else fire AfterInsert None (Some row) (set_collections (rows ++ [row]) db).

(** The INSERT into [metadata]. *)
Definition insert_metadata `{Engine} (key value : pyval) (db : database)
    : result database :=
  rows ← relation (metadata db);
  k ← bind_param key;
  v ← bind_param value;
  if key_conflict fst (text_affinity k) rows then Raised IntegrityError
  else Ok (set_metadata (rows ++ [(text_affinity k, text_affinity v)]) db).

(** INSERT INTO collections_fts (...) SELECT ... FROM collections: one
    index entry per row of [collections], written to the index directly. *)
Definition populate_fts (db : database) : result database :=
  idx ← relation (collections_fts db);
  rows ← relation (collections db);
  Ok (set_fts (idx ++ map fts_projection rows) db).

(** CREATE TRIGGER ... ON collections *)
Definition create_trigger (t : trigger) (db : database) : result database :=
  _ ← relation (collections db);
  if existsb (fun t' => bool_decide (trigger_name t' = trigger_name t)) (triggers db)
  then Raised OperationalError
  else Ok (add_trigger t db).

(** A CREATE of a relation fails when the relation exists already. *)
Definition create_relation {A} (current : option A) (created : database)
    : result database :=
  match current with
  | None => Ok created
  | Some _ => Raised OperationalError
  end.

(** One statement: the database after it and the rows it returns. *)
Definition exec `{Engine} (s : stmt) (db : database)
    : result (database * list (list sqlval)) :=
  match s with
  | CreateTableMetadata =>
      db' ← create_relation (metadata db) (set_metadata [] db); Ok (db', [])
  | InsertMetadata key value =>
      db' ← insert_metadata key value db; Ok (db', [])
  | CreateTableCollections =>
      db' ← create_relation (collections db) (set_collections [] db); Ok (db', [])
  | CreateVirtualTableFts =>
      db' ← create_relation (collections_fts db) (set_fts [] db); Ok (db', [])
  | InsertCollection p =>
      db' ← insert_collection p db; Ok (db', [])
  | PopulateFts =>
      db' ← populate_fts db; Ok (db', [])
  | CreateTrigger t =>
      db' ← create_trigger t db; Ok (db', [])
  | SelectCountCollections =>
      rows ← relation (collections db);
      Ok (db, [[SqlInt (Z.of_nat (length rows))]])
  end.

(** A sequence of statements, one after the other. *)
Fixpoint replay `{Engine} (ss : list stmt) (db : database) : result database :=
  match ss with
  | [] => Ok db
  | s :: ss' => r ← exec s db; replay ss' r.1
  end.

(** Statements before which the Python driver opens a transaction. *)
Definition is_dml (s : stmt) : bool :=
  match s with
  | InsertMetadata _ _ | InsertCollection _ | PopulateFts => true
  | _ => false
  end.

(** *** Full-text queries *)

(** The tokens of a text: maximal runs of token characters, folded. *)
Definition flush (cur : str) : list str :=
  match cur with
  | [] => []
  | _ :: _ => [rev cur]
  end.

Fixpoint tokens_from `{Engine} (cur : str) (s : str) : list str :=
  match s with
  | [] => flush cur
  | c :: t =>
      if is_token_char c then tokens_from (fold_char c :: cur) t
      else flush cur ++ tokens_from [] t
  end.

Definition tokenize `{Engine} (s : str) : list str := tokens_from [] s.

Definition column_tokens `{Engine} (v : sqlval) : list str :=
  match v with
  | SqlText s => tokenize s
  | _ => []
  end.

(** A phrase matches an entry when it has a token and occurs in one of the
    entry's columns. *)
Definition phrase_matches `{Engine} (phrase : list str) (e : fts_entry) : bool :=
  match phrase with
  | [] => false
  | _ :: _ => existsb (fun v => occurs_in phrase (column_tokens v)) (fts_columns e)
  end.

(** The rowids returned by a full-text query whose phrase is the text
    [query], one per matching index entry. *)
Definition fts_match `{Engine} (query : str) (idx : list fts_entry) : list Z :=
  map fts_rowid (filter (fun e => phrase_matches (tokenize query) e = true) idx).

End Sqlite.
Import Sqlite.

(** ** The world the script runs in *)

(** What a path of the file system holds. *)
Inductive file :=
| Database (db : database)
| Other (content : list N).

Inductive node :=
| File (f : file)
| Directory.

(** What the network answers to one request. *)
Inductive http_outcome :=
| TransportFailure
| TimedOut
| Response (status : Z) (body : option pyval).

(** The progress lines of the script. *)
Inductive line :=
| Fetching (url : str)
| SlowNotice
| Fetched (n : nat)
| Creating (path : str)
| Inserted (count : sqlval)
| Created (path : str) (size : N).

(** The file system, the answers the network will give to the requests
    still to come, the requests sent so far, the time of day, the
    statements handed to the engine so far, and the lines printed. *)
Record world := {
  fs : gmap str node;
  network : list http_outcome;
  requests : list str;
  clock : str;
  sql_trace : list stmt;
  stdout : list line
}.

Definition set_fs (f : gmap str node) (w : world) : world :=
  {| fs := f; network := network w; requests := requests w;
     clock := clock w; sql_trace := sql_trace w; stdout := stdout w |}.

(** A computation reads and changes the world and returns or raises. *)
Definition M (A : Type) : Type := world -> result A * world.

#[global] Instance M_ret : MRet M := fun A a w => (Ok a, w).
#[global] Instance M_bind : MBind M := fun A B f m w =>
  match m w with
  | (Ok a, w') => f a w'
  | (Raised e, w') => (Raised e, w')
  end.

Definition lift {A} (r : result A) : M A := fun w => (r, w).

Definition print (l : line) : M unit := fun w =>
  (Ok tt,
   {| fs := fs w; network := network w; requests := requests w;
      clock := clock w; sql_trace := sql_trace w; stdout := stdout w ++ [l] |}).

(** [datetime.now(timezone.utc).isoformat()] *)
Definition now_isoformat : M str := fun w => (Ok (clock w), w).

(** [db_path.exists()] *)
Definition path_exists (p : str) : M bool := fun w =>
  (Ok (bool_decide (is_Some (fs w !! p))), w).

(** [db_path.unlink()] *)
Definition unlink (p : str) : M unit := fun w =>
  match fs w !! p with
  | Some (File _) => (Ok tt, set_fs (delete p (fs w)) w)
  | Some Directory | None => (Raised OSError, w)
  end.

(** [db_path.stat().st_size] *)
Definition stat_size `{Engine} (p : str) : M N := fun w =>
  match fs w !! p with
  | Some (File (Database db)) => (Ok (file_size db), w)
  | Some (File (Other content)) => (Ok (N.of_nat (length content)), w)
  | Some Directory => (Ok 0%N, w)
  | None => (Raised OSError, w)
  end.

(** *** Connections *)

(** A connection with its cursor: the database as the connection sees it,
    whether a transaction is open, and the rows the last statement left to
    fetch. *)
Record connection := {
  conn_path : str;
  conn_db : database;
  in_transaction : bool;
  cursor_rows : list (list sqlval)
}.

(** [sqlite3.connect(db_path)]: a missing or empty file is an empty
    database. *)
Definition connect (p : str) : M connection := fun w =>
  let opened db :=
    (Ok {| conn_path := p; conn_db := db; in_transaction := false;
           cursor_rows := [] |}, w) in
  match fs w !! p with
  | None => opened empty_database
  | Some (File (Database db)) => opened db
  | Some (File (Other [])) => opened empty_database
  | Some (File (Other (_ :: _))) => (Raised DatabaseError, w)
  | Some Directory => (Raised OperationalError, w)
  end.

(** Writing the connection's view of the database to its file. *)
Definition store (p : str) (db : database) (w : world) : world :=
  set_fs (<[p := File (Database db)]> (fs w)) w.

Definition log_stmt (s : stmt) (w : world) : world :=
  {| fs := fs w; network := network w; requests := requests w;
     clock := clock w; sql_trace := sql_trace w ++ [s]; stdout := stdout w |}.

(** [cur.execute(s)].  The driver opens a transaction before an INSERT and
    leaves it open; a statement outside a transaction that changes the
    database is written at once. *)
Definition execute `{Engine} (s : stmt) (conn : connection) : M connection :=
  fun w =>
    let w1 := log_stmt s w in
    match exec s (conn_db conn) with
    | Raised e => (Raised e, w1)
    | Ok (db', rows) =>
        let txn := in_transaction conn || is_dml s in
        let writes :=
          match s with SelectCountCollections => false | _ => negb txn end in
        (Ok {| conn_path := conn_path conn; conn_db := db';
               in_transaction := txn; cursor_rows := rows |},
         if writes then store (conn_path conn) db' w1 else w1)
    end.

(** [conn.commit()] *)
Definition commit (conn : connection) : M connection := fun w =>
  (Ok {| conn_path := conn_path conn; conn_db := conn_db conn;
         in_transaction := false; cursor_rows := cursor_rows conn |},
   if in_transaction conn then store (conn_path conn) (conn_db conn) w else w).

(** [cur.fetchone()[0]] *)
Definition fetchone_first (conn : connection) : M sqlval :=
  lift (match cursor_rows conn with
        | [] => Raised TypeError
        | [] :: _ => Raised IndexError
        | (v :: _) :: _ => Ok v
        end).

(** [conn.close()]: what was not committed is dropped. *)
Definition close (conn : connection) : M unit := mret tt.

(** ** The script *)

Definition API_URL : str :=
  lit "https://api.imaging.datacommons.cancer.gov/v2/collections".
Definition DEFAULT_OUTPUT : str := lit "idc_collections.db".
Definition SCHEMA_VERSION : Z := 1.

(** *** Fetcher *)

Record response := {
  status_code : Z;
  json_body : option pyval
}.

(** [client.get(API_URL)] on a client with a timeout: one request, which
    the network answers, fails or lets time out. *)
Definition client_get (url : str) : M response := fun w =>
  let sent rest :=
    {| fs := fs w; network := rest; requests := requests w ++ [url];
       clock := clock w; sql_trace := sql_trace w; stdout := stdout w |} in
  match network w with
  | [] => (Raised ConnectError, sent [])
  | TransportFailure :: rest => (Raised ConnectError, sent rest)
  | TimedOut :: rest => (Raised TimeoutException, sent rest)
  | Response status body :: rest =>
      (Ok {| status_code := status; json_body := body |}, sent rest)
  end.

(** [response.raise_for_status()]: anything but a 2xx status raises. *)
Definition raise_for_status (r : response) : M unit :=
  lift (if ((200 <=? status_code r) && (status_code r <=? 299))%Z then Ok tt
        else Raised (HTTPStatusError (status_code r))).

(** [response.json()] *)
Definition response_json (r : response) : M pyval :=
  lift (match json_body r with
        | Some v => Ok v
        | None => Raised JSONDecodeError
        end).

(** [fetch_collections()] *)
Definition fetch_collections : M pyval :=
  print (Fetching API_URL);;
  print SlowNotice;;
  response ← client_get API_URL;
  raise_for_status response;;
  data ← response_json response;
  listed ← lift (py_getitem data (lit "collections"));
  n ← lift (py_len listed);
  print (Fetched n);;
  lift (py_getitem data (lit "collections")).

(** *** Loader *)

(** The three triggers of [create_database]. *)
Definition collections_ai : trigger :=
  {| trigger_name := lit "collections_ai"; fires := AfterInsert;
     body := [FtsInsert NewRow] |}.
Definition collections_ad : trigger :=
  {| trigger_name := lit "collections_ad"; fires := AfterDelete;
     body := [FtsDelete OldRow] |}.
Definition collections_au : trigger :=
  {| trigger_name := lit "collections_au"; fires := AfterUpdate;
     body := [FtsDelete OldRow; FtsInsert NewRow] |}.

(** The parameters the loop body passes for one record. *)
Definition record_params `{Converter} (coll : pyval) : result coll_params :=
  html ← dict_get coll (lit "description") (PStr []);
  description ← html_to_markdown html;
  v1 ← dict_get coll (lit "collection_id") PNone;
  v2 ← dict_get coll (lit "cancer_type") PNone;
  v3 ← dict_get coll (lit "location") PNone;
  v4 ← dict_get coll (lit "species") PNone;
  v5 ← dict_get coll (lit "subject_count") PNone;
  v6 ← dict_get coll (lit "date_updated") PNone;
  v7 ← dict_get coll (lit "doi") PNone;
  v8 ← dict_get coll (lit "image_types") PNone;
  v9 ← dict_get coll (lit "supporting_data") PNone;
  Ok {| p_collection_id := v1; p_cancer_type := v2; p_location := v3;
        p_species := v4; p_subject_count := v5; p_date_updated := v6;
        p_doi := v7; p_image_types := v8; p_supporting_data := v9;
        p_description := PStr description |}.

(** The body of the loop over [collections]. *)
Definition insert_record `{Engine} `{Converter} (coll : pyval)
    (conn : connection) : M connection :=
  params ← lift (record_params coll);
  execute (InsertCollection params) conn.

(** A [for] loop that threads the connection through its body. *)
Fixpoint for_each {A S} (loop_body : A -> S -> M S) (items : list A) (s : S)
    : M S :=
  match items with
  | [] => mret s
  | x :: rest => s' ← loop_body x s; for_each loop_body rest s'
  end.

(** [create_database(db_path, collections)] *)
Definition create_database `{Engine} `{Converter} (db_path : str)
    (collections : pyval) : M unit :=
  print (Creating db_path);;
  present ← path_exists db_path;
  (if present : bool then unlink db_path else mret tt);;
  conn ← connect db_path;
  conn ← execute CreateTableMetadata conn;
  conn ← execute (InsertMetadata (PStr (lit "schema_version"))
                                 (PStr (decimal SCHEMA_VERSION))) conn;
  built_at ← now_isoformat;
  conn ← execute (InsertMetadata (PStr (lit "built_at")) (PStr built_at)) conn;
  conn ← execute (InsertMetadata (PStr (lit "source_url")) (PStr API_URL)) conn;
  conn ← execute CreateTableCollections conn;
  conn ← execute CreateVirtualTableFts conn;
  items ← lift (py_iter collections);
  conn ← for_each insert_record items conn;
  conn ← execute PopulateFts conn;
  conn ← execute (CreateTrigger collections_ai) conn;
  conn ← execute (CreateTrigger collections_ad) conn;
  conn ← execute (CreateTrigger collections_au) conn;
  conn ← commit conn;
  conn ← execute SelectCountCollections conn;
  count ← fetchone_first conn;
  print (Inserted count);;
  close conn;;
  size ← stat_size db_path;
  print (Created db_path size).

(** *** Entry point *)

(** [main()], with [sys.argv] as its argument. *)
Definition main `{Engine} `{Converter} (argv : list str) : M unit :=
  let output :=
    match argv with
    | _ :: path :: _ => path
    | _ => DEFAULT_OUTPUT
    end in
  collections ← fetch_collections;
  create_database output collections.

(** ** What a build leaves behind *)

(** The statements of a build whose clock reads [built_at] and whose
    records give the parameters [params], in the order of the script. *)
Definition prelude (built_at : str) : list stmt :=
  [CreateTableMetadata;
   InsertMetadata (PStr (lit "schema_version")) (PStr (decimal SCHEMA_VERSION));
   InsertMetadata (PStr (lit "built_at")) (PStr built_at);
   InsertMetadata (PStr (lit "source_url")) (PStr API_URL);
   CreateTableCollections;
   CreateVirtualTableFts].

Definition epilogue : list stmt :=
  [PopulateFts;
   CreateTrigger collections_ai;
   CreateTrigger collections_ad;
   CreateTrigger collections_au;
   SelectCountCollections].

Definition statements (built_at : str) (params : list coll_params) : list stmt :=
  prelude built_at ++ map InsertCollection params ++ epilogue.

(** The database file at [p], if there is one. *)
Definition database_at (w : world) (p : str) : option database :=
  match fs w !! p with
  | Some (File (Database db)) => Some db
  | _ => None
  end.

(** [coll.get(key)] for a record that is a dict. *)
Definition record_field (coll : pyval) (key : str) : pyval :=
  match coll with
  | PDict entries => from_option id PNone (entries !! key)
  | _ => PNone
  end.

(** The values the engine stores as NULL: None, and a float that is a
    NaN. *)
Definition binds_null (v : pyval) : Prop :=
  v = PNone \/ exists bits, v = PFloat bits /\ is_nan bits = true.

(** How often [z] is among the rowids a query returned. *)
Definition hits (z : Z) (returned : list Z) : nat :=
  length (filter (fun z' => z' = z) returned).

(** The world after more statements have been logged. *)
Definition logged (ss : list stmt) (w : world) : world :=
  {| fs := fs w; network := network w; requests := requests w;
     clock := clock w; sql_trace := sql_trace w ++ ss; stdout := stdout w |}.

(** Rows whose rowids count up from one, and rows whose non-null keys are
    pairwise different. *)
Definition ordered (rows : list coll_row) : Prop :=
  forall i r, rows !! i = Some r -> rowid r = Z.of_nat (S i).

Definition keyed (rows : list coll_row) : Prop :=
  forall i j r1 r2, rows !! i = Some r1 -> rows !! j = Some r2 ->
    collection_id r1 = collection_id r2 -> collection_id r1 <> SqlNull -> i = j.

(** The database of a finished build with the given metadata and rows,
    and the database just before the bulk population of the index. *)
Definition built (md : list (sqlval * sqlval)) (rows : list coll_row) : database :=
  {| metadata := Some md; collections := Some rows;
     collections_fts := Some (map fts_projection rows);
     triggers := [collections_ai; collections_ad; collections_au] |}.

Definition before_load (md : list (sqlval * sqlval)) (rows : list coll_row) : database :=
  {| metadata := Some md; collections := Some rows;
     collections_fts := Some []; triggers := [] |}.

(** ** Sample instances

    A converter and an engine on which the model can be run: the converter
    drops the tags of its input, the engine treats ASCII letters and digits
    and every code point above 127 as token characters and folds ASCII
    capitals. *)

Fixpoint drop_tags (inside : bool) (s : str) : str :=
  match s with
  | [] => []
  | c :: t =>
      if (c =? 60)%N then drop_tags true t
      else if (c =? 62)%N then drop_tags false t
      else if inside then drop_tags inside t
      else c :: drop_tags inside t
  end.

Definition sample_converter : Converter := fun _ html => Ok (drop_tags false html).

Definition sample_engine : Engine :=
  {| text_of_real := fun _ => lit "0.0";
     integer_affinity := fun v => v;
     is_token_char := fun c =>
       ((48 <=? c) && (c <=? 57) || (65 <=? c) && (c <=? 90)
        || (97 <=? c) && (c <=? 122) || (128 <=? c))%N;
     fold_char := fun c => if ((65 <=? c) && (c <=? 90))%N then (c + 32)%N else c;
     file_size := fun _ => 4096%N |}.

(** A world with an empty file system and a silent network. *)
Definition sample_world : world :=
  {| fs := ∅; network := []; requests := []; clock := lit "2024-01-01T00:00:00+00:00";
     sql_trace := []; stdout := [] |}.

(** A record with the given identifier and description. *)
Definition sample_record (id description : str) : pyval :=
  PDict (<[lit "collection_id" := PStr id]>
         (<[lit "description" := PStr description]> ∅)).

(** Two records, the example of the specification. *)
Definition two_records : list pyval :=
  [sample_record (lit "TCGA-A") (lit "<p>hi</p>"); sample_record (lit "TCGA-B") []].

(** A build of [rs] into out.db of [w] on the sample instances. *)
Definition sample_build (rs : list pyval) (w : world) : result unit * world :=
  @create_database sample_engine sample_converter (lit "out.db") (PList rs) w.

(** The sample world with something else at the output path. *)
Definition world_with_old_file : world :=
  set_fs (<[lit "out.db" := File (Other (lit "old contents"))]> ∅) sample_world.

(** The sample world with a network that answers 503. *)
Definition world_with_failing_api : world :=
  {| fs := ∅; network := [Response 503 None]; requests := [];
     clock := clock sample_world; sql_trace := []; stdout := [] |}.

(** ** Inputs the properties below are checked on *)

(** The href and url attributes as the pattern wants them: an empty href,
    one space, then the url. *)
Definition broken_link (url : str) : str :=
  attribute (lit "href") [] ++ lit " " ++ attribute (lit "url") url.

(** An anchor whose url attribute comes before its empty href. *)
Definition reversed_anchor : str :=
  anchor_open [(lit "url", lit "http://x"); (lit "href", [])] ++ lit "t</a>".

(** Two occurrences of the pattern that share text: a pattern head and one
    more character, then a complete occurrence whose first quote closes the
    group opened by that head. *)
Definition overlapping : str :=
  Re.PATTERN_HEAD ++ lit "a" ++ broken_link (lit "Y").

(** The request of [fetch_collections] is one the network does not answer
    with a 2xx status. *)
Definition fetch_fails (w : world) : bool :=
  match network w with
  | [] | TransportFailure :: _ | TimedOut :: _ => true
  | Response status _ :: _ => negb ((200 <=? status) && (status <=? 299))%Z
  end.

(** ** Further inputs and predicates *)

(** The world after a request to [url] that the network answered, with
    [rest] the answers still to come. *)
Definition requested (url : str) (rest : list http_outcome) (w : world) : world :=
  {| fs := fs w; network := rest; requests := requests w ++ [url];
     clock := clock w; sql_trace := sql_trace w; stdout := stdout w |}.

(** The sample world with a network that answers 200 with the two sample
    records under the key collections. *)
Definition world_with_working_api : world :=
  {| fs := ∅;
     network := [Response 200
                   (Some (PDict (<[lit "collections" := PList two_records]> ∅)))];
     requests := []; clock := clock sample_world; sql_trace := [];
     stdout := [] |}.

(** The sample world with a network that gives one answer. *)
Definition world_answering (o : http_outcome) : world :=
  {| fs := ∅; network := [o]; requests := []; clock := clock sample_world;
     sql_trace := []; stdout := [] |}.

(** [coll.get(description, empty string)] for a record that is a dict. *)
Definition record_description (coll : pyval) : pyval :=
  match coll with
  | PDict entries => from_option id (PStr []) (entries !! lit "description")
  | _ => PStr []
  end.

(** The columns of [collections] with TEXT affinity that take a field of
    the record as it is, each with the key of its field. *)
Definition text_columns : list (str * (coll_row -> sqlval)) :=
  [(lit "collection_id", collection_id); (lit "cancer_type", cancer_type);
   (lit "location", location); (lit "species", species);
   (lit "date_updated", date_updated); (lit "doi", doi);
   (lit "image_types", image_types); (lit "supporting_data", supporting_data)].

(** The keys of the nine fields bound as they are. *)
Definition field_keys : list str :=
  [lit "collection_id"; lit "cancer_type"; lit "location"; lit "species";
   lit "subject_count"; lit "date_updated"; lit "doi"; lit "image_types";
   lit "supporting_data"].

(** The values the adapter can bind. *)
Definition bindable (v : pyval) : bool :=
  match v with
  | PNone | PBool _ | PFloat _ => true
  | PInt z => ((- 2 ^ 63 <=? z) && (z <? 2 ^ 63))%Z
  | PStr s => negb (existsb is_surrogate s)
  | PList _ | PDict _ => false
  end.

(** The rows of [metadata] after a build at time [built_at]. *)
Definition metadata_rows (built_at : str) : list (sqlval * sqlval) :=
  [(SqlText (lit "schema_version"), SqlText (decimal SCHEMA_VERSION));
   (SqlText (lit "built_at"), SqlText built_at);
   (SqlText (lit "source_url"), SqlText API_URL)].

(** What a computation that works on the file at [path] alone leaves as
    it was: the network, the requests sent, the clock and every other
    path; the statement trace and the output only grow. *)
Definition confined (path : str) (w w' : world) : Prop :=
  network w' = network w /\ requests w' = requests w /\ clock w' = clock w /\
  (forall q, q <> path -> fs w' !! q = fs w !! q) /\
  sql_trace w `prefix_of` sql_trace w' /\ stdout w `prefix_of` stdout w'.

(** A computation that stays confined to [path] on every outcome and
    whose result, when it returns, satisfies [Q]. *)
Definition keeps {A} (path : str) (m : M A) (Q : A -> Prop) : Prop :=
  forall w r w', m w = (r, w') ->
    confined path w w' /\ forall a, r = Ok a -> Q a.

(** Two records with the same identifier. *)
Definition twin_records : list pyval :=
  [sample_record (lit "TCGA-A") (lit "<p>hi</p>"); sample_record (lit "TCGA-A") []].

(** * Properties *)

(** ** The substitution *)

Lemma pattern_head_eq :
  Re.PATTERN_HEAD = [104; 114; 101; 102; 61; 34; 34; 32; 117; 114; 108; 61; 34]%N.
Proof. reflexivity. Qed.

Lemma sub_cons c t :
  Re.sub (c :: t) =
  match Re.match_at (c :: t) with
  | Some (x, rest) => Re.replacement x ++ Re.sub rest
  | None => c :: Re.sub t
  end.
Proof.
  rewrite Re.sub_equation_2.
  destruct (Re.inspect (Re.match_at (c :: t))) as [[[x rest]|] e];
    simpl; rewrite e; reflexivity.
Qed.

Lemma drop_prefix_spec p s r : Re.drop_prefix p s = Some r <-> s = p ++ r.
Proof.
  revert s. induction p as [|a p IH]; intros s; simpl.
  - split; [intros [= ->]|intros ->]; reflexivity.
  - destruct s as [|b s]; [split; congruence|].
    destruct (N.eqb_spec a b) as [->|Hne].
    + rewrite IH. split; [intros ->; reflexivity|intros [= ->]; reflexivity].
    + split; [congruence|intros [= ? _]; congruence].
Qed.

Lemma span_not_quote_app x rest :
  QUOTE ∉ x -> Re.span_not_quote (x ++ QUOTE :: rest) = (x, QUOTE :: rest).
Proof.
  induction x as [|c x IH]; intros Hx; simpl.
  - reflexivity.
  - destruct (N.eqb_spec c QUOTE) as [->|Hne].
    + exfalso. apply Hx. left.
    + rewrite IH.
      * reflexivity.
      * intros Hin. apply Hx. right. exact Hin.
Qed.

Lemma span_not_quote_spec s x r :
  Re.span_not_quote s = (x, r) ->
  s = x ++ r /\ (QUOTE ∉ x) /\ (r = [] \/ exists r', r = QUOTE :: r').
Proof.
  revert x r. induction s as [|c s IH]; intros x r; simpl.
  - intros [= <- <-]. repeat split; [apply not_elem_of_nil|left; reflexivity].
  - destruct (N.eqb_spec c QUOTE) as [->|Hne].
    + intros [= <- <-]. repeat split; [apply not_elem_of_nil|right; eauto].
    + destruct (Re.span_not_quote s) as [y r'] eqn:Hs. intros [= <- <-].
      destruct (IH _ _ eq_refl) as (-> & Hy & Hr).
      repeat split; [|exact Hr].
      rewrite not_elem_of_cons. split; [congruence|exact Hy].
Qed.

Lemma match_at_spec s x rest :
  Re.match_at s = Some (x, rest) <-> Re.matches s x rest.
Proof.
  unfold Re.match_at, Re.matches. split.
  - destruct (Re.drop_prefix _ s) as [r|] eqn:Hp; [|congruence].
    apply drop_prefix_spec in Hp. subst s.
    destruct (Re.span_not_quote r) as [y r'] eqn:Hs.
    apply span_not_quote_spec in Hs. destruct Hs as (-> & Hy & Hr).
    destruct y as [|c y]; [congruence|]. destruct r' as [|q r']; [congruence|].
    intros [= <- <-]. destruct Hr as [|[r'' [= -> ->]]]; [congruence|].
    repeat split; [congruence|exact Hy].
  - intros (-> & Hne & Hx).
    assert (Hp : Re.drop_prefix Re.PATTERN_HEAD
                   (Re.PATTERN_HEAD ++ x ++ QUOTE :: rest)
                 = Some (x ++ QUOTE :: rest)) by (apply drop_prefix_spec; reflexivity).
    rewrite Hp, (span_not_quote_app _ _ Hx).
    destruct x; [congruence|reflexivity].
Qed.

Lemma sub_hit s x rest :
  Re.match_at s = Some (x, rest) -> Re.sub s = Re.replacement x ++ Re.sub rest.
Proof.
  destruct s as [|c t]; [discriminate|]. intros H. rewrite sub_cons, H. reflexivity.
Qed.

Lemma sub_skip c t :
  Re.match_at (c :: t) = None -> Re.sub (c :: t) = c :: Re.sub t.
Proof. intros H. rewrite sub_cons, H. reflexivity. Qed.

Lemma matches_shorter s x rest : Re.matches s x rest -> length rest < length s.
Proof. intros (-> & _ & _). rewrite !length_app. simpl. lia. Qed.

Lemma matches_extend s x rest more :
  Re.matches s x rest -> Re.matches (s ++ more) x (rest ++ more).
Proof.
  intros (-> & Hne & Hx). repeat split; [|exact Hne|exact Hx].
  rewrite <- !app_assoc. reflexivity.
Qed.

Lemma pattern_head_split pre k :
  Re.PATTERN_HEAD = pre ++ k -> pre <> [] -> k = [] \/ head k <> Some 104%N.
Proof.
  rewrite pattern_head_eq. intros H Hne.
  do 14 (destruct pre as [|? pre]; [simpl in H; subst k; try congruence; right; simpl; congruence|];
         simpl in H; try discriminate H; injection H as <- H).
Qed.

Lemma open_at_end_suffix u pre : Re.open_at_end pre -> Re.open_at_end (u ++ pre).
Proof.
  intros (v & x & -> & Hx). exists (u ++ v), x. split; [|exact Hx].
  rewrite <- app_assoc. reflexivity.
Qed.

Lemma sub_occurrence pre X post :
  ~ Re.open_at_end pre -> X <> [] -> QUOTE ∉ X ->
  Re.sub (pre ++ Re.PATTERN_HEAD ++ X ++ QUOTE :: post)
  = Re.sub pre ++ Re.replacement X ++ Re.sub post.
Proof.
  intros Hopen HX HQ.
  remember (length pre) as n eqn:Hn. revert pre Hn Hopen.
  induction n as [n IH] using lt_wf_ind. intros pre Hn Hopen.
  assert (Hocc : Re.matches (Re.PATTERN_HEAD ++ X ++ QUOTE :: post) X post)
    by (repeat split; assumption).
  destruct pre as [|c t].
  - simpl. rewrite (sub_hit _ X post); [reflexivity|]. apply match_at_spec, Hocc.
  - set (s := (c :: t) ++ Re.PATTERN_HEAD ++ X ++ QUOTE :: post).
    destruct (Re.match_at s) as [[x rest]|] eqn:Hm.
    + pose proof Hm as Hs. apply match_at_spec in Hs.
      destruct Hs as (Hs & Hne & Hx). unfold s in Hs.
      apply app_eq_inv in Hs. destruct Hs as [(k & Hpre & Hk)|(k & Hpat & Hk)].
      * (* the head of the match lies inside [pre] *)
        symmetry in Hk. apply app_eq_inv in Hk.
        destruct Hk as [(k2 & Hk2 & Hrest)|(k2 & Hxk & _)].
        -- destruct k2 as [|q k3].
           { exfalso. apply Hopen. exists [], x. rewrite Hpre, Hk2, app_nil_r.
             split; [reflexivity|exact Hx]. }
           injection Hrest as <- Hrest. subst k.
           assert (Hin : Re.matches (c :: t) x k3)
             by (rewrite Hpre; repeat split; assumption).
           rewrite (sub_hit s x rest Hm).
           rewrite (sub_hit (c :: t) x k3) by (apply match_at_spec, Hin).
           rewrite Hrest, (IH (length k3)); [rewrite <- !app_assoc; reflexivity| |reflexivity|].
           ++ rewrite Hn. apply matches_shorter in Hin. exact Hin.
           ++ intros Ho. apply Hopen. rewrite Hpre.
              replace (Re.PATTERN_HEAD ++ x ++ QUOTE :: k3)
                with ((Re.PATTERN_HEAD ++ x ++ [QUOTE]) ++ k3)
                by (rewrite <- !app_assoc; reflexivity).
              apply open_at_end_suffix, Ho.
        -- exfalso. apply Hopen. exists [], k. split; [exact Hpre|].
           rewrite Hxk in Hx. rewrite not_elem_of_app in Hx. apply Hx.
      * (* [pre] is a proper prefix of the head *)
        destruct k as [|a k].
        -- exfalso. apply Hopen. exists [], []. rewrite app_nil_r in Hpat |- *.
           split; [symmetry; exact Hpat|apply not_elem_of_nil].
        -- exfalso.
           destruct (pattern_head_split _ _ Hpat ltac:(discriminate)) as [|Hk'];
             [discriminate|].
           apply Hk'. rewrite pattern_head_eq in Hk. simpl in Hk.
           injection Hk as <- _. reflexivity.
    + assert (Hm' : Re.match_at (c :: t) = None).
      { destruct (Re.match_at (c :: t)) as [[x t']|] eqn:Hm'; [|reflexivity].
        apply match_at_spec in Hm'.
        apply (matches_extend _ _ _ (Re.PATTERN_HEAD ++ X ++ QUOTE :: post)) in Hm'.
        apply match_at_spec in Hm'. fold s in Hm'. congruence. }
      unfold s in *. simpl in Hm |- *.
      rewrite (sub_skip _ _ Hm), (sub_skip _ _ Hm').
      rewrite (IH (length t)); [reflexivity| |reflexivity|].
      * rewrite Hn. simpl. lia.
      * intros Ho. apply Hopen. apply (open_at_end_suffix [c]), Ho.
Qed.

Lemma sub_no_match s :
  (forall u v, s = u ++ v -> Re.match_at v = None) -> Re.sub s = s.
Proof.
  induction s as [|c t IH]; intros H; [reflexivity|].
  rewrite sub_skip by (apply (H []); reflexivity).
  rewrite IH; [reflexivity|]. intros u v ->. apply (H (c :: u)). reflexivity.
Qed.

Lemma subst_sub s out : Re.subst s out <-> Re.sub s = out.
Proof.
  split.
  - induction 1 as [|s x rest out Hm _ IH|c t out Hn _ IH].
    + reflexivity.
    + rewrite (sub_hit s x rest) by (apply match_at_spec, Hm). rewrite IH. reflexivity.
    + rewrite sub_skip, IH; [reflexivity|].
      destruct (Re.match_at (c :: t)) as [[x rest]|] eqn:Hm; [|reflexivity].
      apply match_at_spec in Hm. destruct (Hn _ _ Hm).
  - intros <-. remember (length s) as n eqn:Hn. revert s Hn.
    induction n as [n IH] using lt_wf_ind. intros [|c t] Hn.
    + constructor.
    + destruct (Re.match_at (c :: t)) as [[x rest]|] eqn:Hm.
      * rewrite (sub_hit _ _ _ Hm). apply match_at_spec in Hm.
        apply (Re.subst_hit _ _ _ _ Hm).
        apply (IH (length rest)); [|reflexivity].
        rewrite Hn. apply matches_shorter in Hm. exact Hm.
      * rewrite (sub_skip _ _ Hm). apply Re.subst_skip.
        -- intros x rest Hx. apply match_at_spec in Hx. congruence.
        -- apply (IH (length t)); [|reflexivity]. rewrite Hn. simpl. lia.
Qed.

(** ** The loader *)

Section Loader.
Context `{Engine} `{Converter}.

Lemma bind_ok {A B} (m : M A) (f : A -> M B) w b w' :
  (m ≫= f) w = (Ok b, w') ->
  exists a w1, m w = (Ok a, w1) /\ f a w1 = (Ok b, w').
Proof.
  unfold mbind, M_bind. destruct (m w) as [[a|e] w1]; [eauto|congruence].
Qed.

Lemma result_bind_ok {A B} (r : result A) (f : A -> result B) b :
  r ≫= f = Ok b -> exists a, r = Ok a /\ f a = Ok b.
Proof. destruct r as [a|e]; simpl; [eauto|congruence]. Qed.

Lemma execute_ok s conn w conn' w' :
  execute s conn w = (Ok conn', w') ->
  exec s (conn_db conn) = Ok (conn_db conn', cursor_rows conn') /\
  conn_path conn' = conn_path conn /\
  in_transaction conn' = in_transaction conn || is_dml s /\
  w' = (if match s with SelectCountCollections => false
                 | _ => negb (in_transaction conn || is_dml s) end
        then store (conn_path conn) (conn_db conn') (log_stmt s w)
        else log_stmt s w).
Proof.
  unfold execute. destruct (exec s (conn_db conn)) as [[db' rows]|e]; [|congruence].
  intros [= <- <-]. simpl. auto.
Qed.

Lemma for_each_insert_ok items : forall conn w conn' w',
  in_transaction conn = true ->
  for_each insert_record items conn w = (Ok conn', w') ->
  exists params,
    Forall2 (fun c p => record_params c = Ok p) items params /\
    replay (map InsertCollection params) (conn_db conn) = Ok (conn_db conn') /\
    conn_path conn' = conn_path conn /\
    in_transaction conn' = true /\
    w' = logged (map InsertCollection params) w.
Proof.
  induction items as [|c items IH]; intros conn w conn' w' Htx Hrun; simpl in Hrun.
  - injection Hrun as <- <-. exists []. repeat split; auto.
    destruct w; unfold logged; simpl. rewrite app_nil_r. reflexivity.
  - apply bind_ok in Hrun as (conn1 & w1 & Hstep & Hrun).
    unfold insert_record in Hstep.
    apply bind_ok in Hstep as (p & w0 & Hp & Hstep).
    unfold lift in Hp. injection Hp as Hp <-.
    apply execute_ok in Hstep as (Hexec & Hpath & Htx1 & ->).
    rewrite Htx in *. simpl in *.
    destruct (IH _ _ _ _ Htx1 Hrun) as (ps & Hps & Hreplay & Hpath' & Htx' & ->).
    exists (p :: ps). repeat split; auto.
    + simpl. rewrite Hexec. simpl. exact Hreplay.
    + congruence.
    + unfold logged, log_stmt. simpl. rewrite <- app_assoc. reflexivity.
Qed.


Lemma replay_cons s ss db db' rows :
  exec s db = Ok (db', rows) -> replay (s :: ss) db = replay ss db'.
Proof. intros E. simpl. rewrite E. reflexivity. Qed.

Lemma replay_app a b db db' :
  replay a db = Ok db' -> replay (a ++ b) db = replay b db'.
Proof.
  revert db. induction a as [|s a IH]; intros db; simpl.
  - intros [= ->]. reflexivity.
  - destruct (exec s db) as [[d r]|e]; simpl; [apply IH|congruence].
Qed.

Lemma create_database_ok path records w w' :
  create_database path (PList records) w = (Ok tt, w') ->
  exists params db rows,
    Forall2 (fun c p => record_params c = Ok p) records params /\
    replay (statements (clock w) params) empty_database = Ok db /\
    collections db = Some rows /\
    w' = {| fs := <[path := File (Database db)]> (fs w);
            network := network w; requests := requests w; clock := clock w;
            sql_trace := sql_trace w ++ statements (clock w) params;
            stdout := stdout w ++ [Creating path;
                                   Inserted (SqlInt (Z.of_nat (length rows)));
                                   Created path (file_size db)] |}.
Proof.
  unfold create_database. intros Hrun.
  apply bind_ok in Hrun as ([] & w1 & Hprint & Hrun).
  apply bind_ok in Hrun as (present & w2 & Hpresent & Hrun).
  apply bind_ok in Hrun as ([] & w3 & Hunlink & Hrun).
  apply bind_ok in Hrun as (c0 & w4 & Hconnect & Hrun).
  apply bind_ok in Hrun as (c1 & w5 & He1 & Hrun).
  apply bind_ok in Hrun as (c2 & w6 & He2 & Hrun).
  apply bind_ok in Hrun as (built_at & w7 & Hnow & Hrun).
  apply bind_ok in Hrun as (c3 & w8 & He3 & Hrun).
  apply bind_ok in Hrun as (c4 & w9 & He4 & Hrun).
  apply bind_ok in Hrun as (c5 & w10 & He5 & Hrun).
  apply bind_ok in Hrun as (c6 & w11 & He6 & Hrun).
  apply bind_ok in Hrun as (items & w12 & Hiter & Hrun).
  apply bind_ok in Hrun as (c7 & w13 & Hloop & Hrun).
  apply bind_ok in Hrun as (c8 & w14 & He8 & Hrun).
  apply bind_ok in Hrun as (c9 & w15 & He9 & Hrun).
  apply bind_ok in Hrun as (c10 & w16 & He10 & Hrun).
  apply bind_ok in Hrun as (c11 & w17 & He11 & Hrun).
  apply bind_ok in Hrun as (c12 & w18 & Hcommit & Hrun).
  apply bind_ok in Hrun as (c13 & w19 & He13 & Hrun).
  apply bind_ok in Hrun as (count & w20 & Hcount & Hrun).
  apply bind_ok in Hrun as ([] & w21 & Hprint2 & Hrun).
  apply bind_ok in Hrun as ([] & w22 & Hclose & Hrun).
  apply bind_ok in Hrun as (size & w23 & Hsize & Hrun).
  unfold print in Hprint, Hprint2, Hrun. unfold path_exists in Hpresent.
  injection Hprint as <-. injection Hpresent as <- <-.
  assert (Hw3 : w3 = set_fs (delete path (fs w))
                  {| fs := fs w; network := network w; requests := requests w;
                     clock := clock w; sql_trace := sql_trace w;
                     stdout := stdout w ++ [Creating path] |}).
  { simpl in Hunlink. destruct (fs w !! path) as [[f|]|] eqn:Hfs.
    - rewrite bool_decide_eq_true_2 in Hunlink by eauto.
      unfold unlink in Hunlink. simpl in Hunlink. rewrite Hfs in Hunlink.
      injection Hunlink as <-. reflexivity.
    - rewrite bool_decide_eq_true_2 in Hunlink by eauto.
      unfold unlink in Hunlink. simpl in Hunlink. rewrite Hfs in Hunlink.
      discriminate.
    - rewrite bool_decide_eq_false_2 in Hunlink by (intros [? ?]; congruence).
      injection Hunlink as <-. unfold set_fs. simpl.
      rewrite delete_id by exact Hfs. reflexivity. }
  subst w3.
  unfold connect in Hconnect. simpl in Hconnect.
  rewrite lookup_delete_eq in Hconnect. injection Hconnect as <- <-.
  unfold now_isoformat in Hnow. injection Hnow as <- <-.
  unfold lift in Hiter. simpl in Hiter. injection Hiter as <- <-.
  apply execute_ok in He1 as (X1 & P1 & T1 & Hw).
  cbn [conn_path conn_db in_transaction is_dml orb negb] in X1, P1, T1, Hw.
  subst w5.
  apply execute_ok in He2 as (X2 & P2 & T2 & Hw).
  rewrite T1 in T2, Hw. cbn [is_dml orb negb] in T2, Hw. subst w6.
  apply execute_ok in He3 as (X3 & P3 & T3 & Hw).
  rewrite T2 in T3, Hw. cbn [is_dml orb negb] in T3, Hw. subst w8.
  apply execute_ok in He4 as (X4 & P4 & T4 & Hw).
  rewrite T3 in T4, Hw. cbn [is_dml orb negb] in T4, Hw. subst w9.
  apply execute_ok in He5 as (X5 & P5 & T5 & Hw).
  rewrite T4 in T5, Hw. cbn [is_dml orb negb] in T5, Hw. subst w10.
  apply execute_ok in He6 as (X6 & P6 & T6 & Hw).
  rewrite T5 in T6, Hw. cbn [is_dml orb negb] in T6, Hw. subst w11.
  apply (for_each_insert_ok _ _ _ _ _ T6) in Hloop
    as (params & Hparams & Xloop & P7 & T7 & ->).
  apply execute_ok in He8 as (X8 & P8 & T8 & Hw).
  rewrite T7 in T8, Hw. cbn [is_dml orb negb] in T8, Hw. subst w14.
  apply execute_ok in He9 as (X9 & P9 & T9 & Hw).
  rewrite T8 in T9, Hw. cbn [is_dml orb negb] in T9, Hw. subst w15.
  apply execute_ok in He10 as (X10 & P10 & T10 & Hw).
  rewrite T9 in T10, Hw. cbn [is_dml orb negb] in T10, Hw. subst w16.
  apply execute_ok in He11 as (X11 & P11 & T11 & Hw).
  rewrite T10 in T11, Hw. cbn [is_dml orb negb] in T11, Hw. subst w17.
  assert (Hpath : conn_path c11 = path) by congruence.
  unfold commit in Hcommit. rewrite T11, Hpath in Hcommit.
  injection Hcommit as <- <-.
  apply execute_ok in He13 as (X13 & P13 & T13 & Hw).
  cbn [conn_db conn_path cursor_rows in_transaction is_dml orb negb] in X13, P13, T13, Hw.
  subst w19.
  pose proof X13 as Hsel. unfold exec in Hsel.
  apply result_bind_ok in Hsel as (rows & Hrows & Hsel).
  injection Hsel as Hdb Hcur.
  unfold fetchone_first, lift in Hcount. rewrite <- Hcur in Hcount.
  injection Hcount as <- <-. injection Hprint2 as <-.
  unfold close in Hclose. injection Hclose as <-.
  unfold stat_size in Hsize.
  cbn [fs store set_fs log_stmt logged] in Hsize.
  rewrite lookup_insert_eq in Hsize. injection Hsize as <- <-.
  injection Hrun as <-.
  exists params, (conn_db c11), rows. split; [exact Hparams|].
  split; [|split].
  - cbn [conn_db] in X1. unfold statements, prelude, epilogue. cbn [app].
    rewrite (replay_cons _ _ _ _ _ X1), (replay_cons _ _ _ _ _ X2),
      (replay_cons _ _ _ _ _ X3), (replay_cons _ _ _ _ _ X4),
      (replay_cons _ _ _ _ _ X5), (replay_cons _ _ _ _ _ X6),
      (replay_app _ _ _ _ Xloop), (replay_cons _ _ _ _ _ X8),
      (replay_cons _ _ _ _ _ X9), (replay_cons _ _ _ _ _ X10),
      (replay_cons _ _ _ _ _ X11), (replay_cons _ _ _ _ _ X13).
    simpl. congruence.
  - destruct (collections (conn_db c11)); simpl in Hrows; congruence.
  - f_equal.
    + cbn [fs store set_fs log_stmt logged].
      rewrite insert_insert_eq, insert_delete_eq. reflexivity.
    + cbn [sql_trace store set_fs log_stmt logged].
      unfold statements, prelude, epilogue. rewrite <- !app_assoc. reflexivity.
    + cbn [stdout store set_fs log_stmt logged]. rewrite <- !app_assoc. reflexivity.
Qed.


Lemma foldr_max_init (rows : list coll_row) a :
  foldr (fun r m => Z.max (rowid r) m) a rows
  = Z.max a (foldr (fun r m => Z.max (rowid r) m) 0%Z rows) \/ (a < 0)%Z.
Proof.
  destruct (Z.lt_ge_cases a 0) as [|Ha]; [right; assumption|left].
  induction rows as [|r rows IH]; simpl; [lia|]. rewrite IH. lia.
Qed.

Lemma next_rowid_ordered rows :
  ordered rows -> next_rowid rows = Z.of_nat (S (length rows)).
Proof.
  unfold next_rowid. intros Hord.
  enough (foldr (fun r m => Z.max (rowid r) m) 0%Z rows = Z.of_nat (length rows)) by lia.
  induction rows as [|r rows IH] using rev_ind; [reflexivity|].
  rewrite foldr_app, length_app. simpl.
  destruct (foldr_max_init rows (Z.max (rowid r) 0)) as [->|]; [|lia].
  rewrite IH.
  - rewrite (Hord (length rows) r); [lia|].
    rewrite lookup_app_r, Nat.sub_diag by lia. reflexivity.
  - intros i r' Hi. apply Hord. rewrite lookup_app_l; [exact Hi|].
    apply lookup_lt_Some in Hi. exact Hi.
Qed.

Lemma key_conflict_false (k : sqlval) (rows : list coll_row) :
  key_conflict collection_id k rows = false ->
  k <> SqlNull -> forall r, r ∈ rows -> collection_id r <> k.
Proof.
  unfold key_conflict. intros Hc Hk r Hr Heq.
  assert (Hex : existsb (fun r => bool_decide (collection_id r = k)) rows = true).
  { apply existsb_exists. exists r. split; [apply list_elem_of_In, Hr|].
    apply bool_decide_eq_true_2, Heq. }
  destruct k; congruence.
Qed.

Lemma insert_collection_ok p db db' rows :
  triggers db = [] -> collections db = Some rows ->
  insert_collection p db = Ok db' ->
  exists row, bind_row p (next_rowid rows) = Ok row /\
    key_conflict collection_id (collection_id row) rows = false /\
    db' = set_collections (rows ++ [row]) db.
Proof.
  intros Ht Hc. unfold insert_collection. rewrite Hc. simpl.
  destruct (bind_row p (next_rowid rows)) as [row|e]; simpl; [|congruence].
  destruct (key_conflict _ _ rows) eqn:Hk; [congruence|].
  unfold fire. simpl. rewrite Ht. simpl. intros [= <-]. eauto.
Qed.

Lemma bind_row_rowid p rid row : bind_row p rid = Ok row -> rowid row = rid.
Proof.
  unfold bind_row. intros Hb.
  repeat (apply result_bind_ok in Hb as (? & _ & Hb)).
  injection Hb as <-. reflexivity.
Qed.

Lemma replay_inserts ps : forall db db' rows,
  triggers db = [] -> collections db = Some rows ->
  ordered rows -> keyed rows ->
  replay (map InsertCollection ps) db = Ok db' ->
  exists added,
    db' = set_collections (rows ++ added) db /\
    Forall2 (fun p r => bind_row p (rowid r) = Ok r) ps added /\
    ordered (rows ++ added) /\ keyed (rows ++ added).
Proof.
  induction ps as [|p ps IH]; intros db db' rows Ht Hc Hord Hkey Hrun.
  - simpl in Hrun. injection Hrun as <-. exists []. rewrite app_nil_r.
    repeat split; auto. destruct db; unfold set_collections; simpl in *; congruence.
  - simpl in Hrun. apply result_bind_ok in Hrun as ([db1 out] & Hstep & Hrun).
    simpl in Hstep. apply result_bind_ok in Hstep as (db1' & Hins & [= <- <-]).
    destruct (insert_collection_ok _ _ _ _ Ht Hc Hins) as (row & Hrow & Hk & ->).
    pose proof (bind_row_rowid _ _ _ Hrow) as Hrid.
    rewrite (next_rowid_ordered _ Hord) in Hrid.
    assert (Hord' : ordered (rows ++ [row])).
    { intros i r Hi. destruct (decide (i < length rows)) as [Hlt|Hge].
      - rewrite lookup_app_l in Hi by exact Hlt. apply Hord, Hi.
      - rewrite lookup_app_r in Hi by lia.
        destruct (i - length rows) as [|k] eqn:Hik; simpl in Hi; [|rewrite lookup_nil in Hi; congruence].
        injection Hi as <-. rewrite Hrid. f_equal. lia. }
    assert (Hkey' : keyed (rows ++ [row])).
    { intros i j r1 r2 Hi Hj Heq Hnn.
      destruct (decide (i < length rows)) as [Hi'|Hi'];
        destruct (decide (j < length rows)) as [Hj'|Hj'].
      - rewrite lookup_app_l in Hi, Hj by assumption. eapply Hkey; eauto.
      - rewrite lookup_app_l in Hi by assumption. rewrite lookup_app_r in Hj by lia.
        destruct (j - length rows) as [|k]; simpl in Hj; [|rewrite lookup_nil in Hj; congruence].
        injection Hj as <-. exfalso.
        apply (key_conflict_false _ _ Hk) with (r := r1); [congruence| |exact Heq].
        apply list_elem_of_lookup. eauto.
      - rewrite lookup_app_l in Hj by assumption. rewrite lookup_app_r in Hi by lia.
        destruct (i - length rows) as [|k]; simpl in Hi; [|rewrite lookup_nil in Hi; congruence].
        injection Hi as <-. exfalso.
        apply (key_conflict_false _ _ Hk) with (r := r2); [exact Hnn| |congruence].
        apply list_elem_of_lookup. eauto.
      - apply lookup_lt_Some in Hi, Hj. rewrite length_app in Hi, Hj. simpl in *. lia. }
    simpl in Hrun.
    destruct (IH (set_collections (rows ++ [row]) db) db' (rows ++ [row]) Ht eq_refl Hord' Hkey' Hrun)
      as (added & -> & Hadded & Hord'' & Hkey'').
    exists (row :: added). rewrite <- app_assoc in *. simpl in *.
    repeat split; auto. constructor; [|exact Hadded].
    rewrite Hrid, <- (next_rowid_ordered _ Hord). exact Hrow.
Qed.


Lemma replay_prelude built_at db :
  replay (prelude built_at) empty_database = Ok db ->
  exists md, db = before_load md [].
Proof.
  unfold prelude. simpl. unfold insert_metadata. simpl.
  destruct (existsb is_surrogate built_at); simpl; [congruence|].
  vm_compute. intros [= <-]. eexists. reflexivity.
Qed.

Lemma replay_epilogue md rows db :
  replay epilogue (before_load md rows) = Ok db -> db = built md rows.
Proof.
  unfold epilogue. simpl. intros [= <-]. reflexivity.
Qed.

Lemma replay_statements built_at params db :
  replay (statements built_at params) empty_database = Ok db ->
  exists md rows,
    db = built md rows /\
    replay (prelude built_at ++ map InsertCollection params) empty_database
      = Ok (before_load md rows) /\
    Forall2 (fun p r => bind_row p (rowid r) = Ok r) params rows /\
    ordered rows /\ keyed rows.
Proof.
  unfold statements. intros Hrun.
  destruct (replay (prelude built_at) empty_database) as [db0|e] eqn:H0'.
  2:{ exfalso. revert Hrun. generalize (map InsertCollection params ++ epilogue).
      intros l. revert H0'. generalize empty_database. generalize (prelude built_at).
      induction l0 as [|s l0 IH]; intros d; simpl; [congruence|].
      destruct (exec s d) as [[d' r]|e']; simpl; [apply IH|congruence]. }
  rewrite (replay_app _ _ _ _ H0') in Hrun.
  apply replay_prelude in H0' as Hdb0. destruct Hdb0 as (md & ->).
  destruct (replay (map InsertCollection params) (before_load md [])) as [db1|e] eqn:H1.
  2:{ exfalso. revert Hrun H1. generalize (before_load md []).
      generalize (map InsertCollection params).
      induction l as [|s l IH]; intros d; simpl; [congruence|].
      destruct (exec s d) as [[d' r]|e']; simpl; [apply IH|congruence]. }
  rewrite (replay_app _ _ _ _ H1) in Hrun.
  destruct (replay_inserts params (before_load md []) db1 [] eq_refl eq_refl)
    as (rows & -> & Hrows & Hord & Hkey); [| |exact H1|].
  - intros i r Hi. rewrite lookup_nil in Hi. congruence.
  - intros i j r1 r2 Hi. rewrite lookup_nil in Hi. congruence.
  - change (set_collections ([] ++ rows) (before_load md []))
      with (before_load md rows) in *.
    exists md, rows. repeat split; auto.
    + apply replay_epilogue in Hrun. exact Hrun.
    + rewrite (replay_app _ _ _ _ H0'). exact H1.
Qed.


Lemma build_outcome path records w w' :
  create_database path (PList records) w = (Ok tt, w') ->
  exists params md rows,
    Forall2 (fun c p => record_params c = Ok p) records params /\
    Forall2 (fun p r => bind_row p (rowid r) = Ok r) params rows /\
    ordered rows /\ keyed rows /\
    replay (prelude (clock w) ++ map InsertCollection params) empty_database
      = Ok (before_load md rows) /\
    w' = {| fs := <[path := File (Database (built md rows))]> (fs w);
            network := network w; requests := requests w; clock := clock w;
            sql_trace := sql_trace w ++ statements (clock w) params;
            stdout := stdout w ++ [Creating path;
                                   Inserted (SqlInt (Z.of_nat (length rows)));
                                   Created path (file_size (built md rows))] |}.
Proof.
  intros Hrun.
  apply create_database_ok in Hrun as (params & db & rows & Hps & Hdb & Hc & ->).
  apply replay_statements in Hdb as (md & rows' & -> & Hmid & Hrows & Hord & Hkey).
  simpl in Hc. injection Hc as <-.
  exists params, md, rows'. repeat split; assumption.
Qed.

Lemma database_at_built path md rows w w' :
  fs w' = <[path := File (Database (built md rows))]> (fs w) ->
  database_at w' path = Some (built md rows).
Proof.
  intros Hfs. unfold database_at. rewrite Hfs, lookup_insert_eq. reflexivity.
Qed.

Lemma ordered_NoDup rows : ordered rows -> NoDup (map rowid rows).
Proof.
  intros Hord. apply NoDup_alt. intros i j z Hi Hj.
  rewrite list_lookup_fmap in Hi, Hj.
  destruct (rows !! i) as [ri|] eqn:Hri; [|discriminate].
  destruct (rows !! j) as [rj|] eqn:Hrj; [|discriminate].
  simpl in Hi, Hj. apply Hord in Hri, Hrj. simplify_eq. lia.
Qed.

End Loader.

(** ** The transformer *)

Section Transformer.
Context `{Converter}.

Lemma broken_link_eq X :
  broken_link X = Re.PATTERN_HEAD ++ X ++ [QUOTE].
Proof. reflexivity. Qed.

Lemma runs_text s r :
  runs (PStr s) r <->
  r = (if negb (py_truthy (PStr s)) then Ok []
       else md ← markdownify [lit "i"] (Re.sub s); Ok (strip md)).
Proof.
  split.
  - inversion 1 as [v Hf|v Ht Hn|s' html' md Ht Hs Hmd|s' html' e Ht Hs Hmd]; subst.
    + rewrite Hf. reflexivity.
    + destruct (Hn s eq_refl).
    + apply subst_sub in Hs. subst html'. rewrite Ht, Hmd. reflexivity.
    + apply subst_sub in Hs. subst html'. rewrite Ht, Hmd. reflexivity.
  - intros ->. destruct (py_truthy (PStr s)) eqn:Ht; simpl.
    + destruct (markdownify [lit "i"] (Re.sub s)) as [md|e] eqn:Hmd; simpl.
      * eapply runs_converted; [exact Ht|apply subst_sub; reflexivity|exact Hmd].
      * eapply runs_converter_raises; [exact Ht|apply subst_sub; reflexivity|exact Hmd].
    + apply runs_falsy, Ht.
Qed.

(** C7. For an input that is null or empty, [html_to_markdown] returns the
    empty string. *)
Theorem html_to_markdown_empty (html : pyval) :
  html = PNone \/ html = PStr [] -> html_to_markdown html = Ok [].
Proof.
  intros [Hnull|Hempty]; subst html; unfold html_to_markdown; simpl; reflexivity.
Qed.



End Transformer.


Lemma not_open_at_end_short (pre : str) :
  length pre < length Re.PATTERN_HEAD -> ~ Re.open_at_end pre.
Proof.
  intros Hlen (u & x & Heq & _). apply (f_equal length) in Heq.
  rewrite !length_app in Heq. lia.
Qed.

Lemma html_to_markdown_empty_witness :
  (PNone = PNone \/ PNone = PStr []) /\
  @html_to_markdown sample_converter PNone = Ok [].
Proof.
  split; [left; reflexivity|].
  apply (@html_to_markdown_empty sample_converter PNone). left. reflexivity.
Defined.






(** ** The loader and the entry point *)

Section Build.
Context `{Engine} `{Converter}.

Lemma record_params_collection_id c p :
  record_params c = Ok p ->
  p_collection_id p = record_field c (lit "collection_id").
Proof.
  unfold record_params. intros Hp.
  apply result_bind_ok in Hp as (html & Hhtml & Hp).
  destruct c; try discriminate Hhtml.
  apply result_bind_ok in Hp as (d & _ & Hp).
  repeat (apply result_bind_ok in Hp as (? & [= <-] & Hp)).
  injection Hp as <-. reflexivity.
Qed.

Lemma bind_param_null v x :
  bind_param v = Ok x ->
  x = SqlNull <-> binds_null v.
Proof.
  unfold binds_null. destruct v as [|b|z|bits|s|items|entries]; simpl.
  - intros [= <-]. split; [left|]; reflexivity.
  - intros [= <-]. split; [discriminate|]. intros [|(? & ? & _)]; discriminate.
  - destruct (_ && _); [|discriminate]. intros [= <-].
    split; [discriminate|]. intros [|(? & ? & _)]; discriminate.
  - destruct (is_nan bits) eqn:Hnan; intros [= <-].
    + split; [|reflexivity]. intros _. right. eauto.
    + split; [discriminate|]. intros [|(b' & [= <-] & Hb)]; congruence.
  - destruct (existsb _ _); [discriminate|]. intros [= <-].
    split; [discriminate|]. intros [|(? & ? & _)]; discriminate.
  - discriminate.
  - discriminate.
Qed.

Lemma text_affinity_null x : text_affinity x = SqlNull <-> x = SqlNull.
Proof. destruct x; simpl; split; congruence. Qed.

Lemma bind_row_collection_id p rid r :
  bind_row p rid = Ok r ->
  collection_id r = SqlNull <-> binds_null (p_collection_id p).
Proof.
  unfold bind_row. intros Hb.
  apply result_bind_ok in Hb as (v1 & Hv1 & Hb).
  repeat (apply result_bind_ok in Hb as (? & _ & Hb)).
  injection Hb as <-. simpl.
  rewrite text_affinity_null. apply bind_param_null, Hv1.
Qed.

Lemma rowid_filter_absent (P : fts_entry -> Prop) `{forall e, Decision (P e)}
    (z : Z) (rows : list coll_row) :
  z ∉ map rowid rows ->
  filter (fun e => fts_rowid e = z) (filter P (map fts_projection rows)) = [].
Proof.
  induction rows as [|a rows IH]; intros Hz; [reflexivity|].
  simpl in Hz. rewrite not_elem_of_cons in Hz. destruct Hz as [Hne Hz].
  simpl. rewrite filter_cons. destruct (decide (P (fts_projection a))).
  - rewrite filter_cons. destruct (decide (fts_rowid (fts_projection a) = z)) as [Heq|_].
    + simpl in Heq. congruence.
    + apply IH, Hz.
  - apply IH, Hz.
Qed.

Lemma rowid_filter_present (P : fts_entry -> Prop) `{forall e, Decision (P e)}
    (r : coll_row) (rows : list coll_row) :
  NoDup (map rowid rows) -> r ∈ rows -> P (fts_projection r) ->
  filter (fun e => fts_rowid e = rowid r) (filter P (map fts_projection rows))
  = [fts_projection r].
Proof.
  induction rows as [|a rows IH]; intros Hnd Hr HP.
  - apply elem_of_nil in Hr. destruct Hr.
  - simpl in Hnd. apply NoDup_cons in Hnd as [Ha Hnd].
    apply elem_of_cons in Hr. simpl. rewrite filter_cons.
    destruct Hr as [<-|Hr].
    + rewrite decide_True by exact HP. rewrite filter_cons, decide_True by reflexivity.
      rewrite rowid_filter_absent by exact Ha. reflexivity.
    + assert (Hne : rowid a <> rowid r).
      { intros Heq. apply Ha. rewrite Heq. apply list_elem_of_fmap. eauto. }
      destruct (decide (P (fts_projection a))).
      * rewrite filter_cons, decide_False by (simpl; exact Hne). apply IH; assumption.
      * apply IH; assumption.
Qed.

Lemma hits_fmap (z : Z) (idx : list fts_entry) :
  hits z (map fts_rowid idx) = length (filter (fun e => fts_rowid e = z) idx).
Proof.
  unfold hits. induction idx as [|e idx IH]; [reflexivity|].
  simpl. rewrite !filter_cons.
  destruct (decide (fts_rowid e = z)); simpl; rewrite IH; reflexivity.
Qed.

Lemma occurs_in_self (p : list str) : p <> [] -> occurs_in p p = true.
Proof.
  destruct p as [|t p]; [congruence|]. intros _. simpl.
  rewrite take_ge by lia. rewrite bool_decide_eq_true_2 by reflexivity. reflexivity.
Qed.

Lemma print_bind {B} l (k : unit -> M B) w :
  (print l ≫= k) w
  = k tt {| fs := fs w; network := network w; requests := requests w;
            clock := clock w; sql_trace := sql_trace w;
            stdout := stdout w ++ [l] |}.
Proof. reflexivity. Qed.

Lemma path_exists_bind {B} p (k : bool -> M B) w :
  (path_exists p ≫= k) w = k (bool_decide (is_Some (fs w !! p))) w.
Proof. reflexivity. Qed.

Lemma unlink_bind {B} p f (k : unit -> M B) w :
  fs w !! p = Some (File f) ->
  (unlink p ≫= k) w = k tt (set_fs (delete p (fs w)) w).
Proof. intros Hp. unfold mbind, M_bind, unlink. rewrite Hp. reflexivity. Qed.

Lemma mret_bind {A B} (a : A) (k : A -> M B) w : (mret a ≫= k) w = k a w.
Proof. reflexivity. Qed.

Lemma build_row_count path records w w' :
  create_database path (PList records) w = (Ok tt, w') ->
  exists md rows,
    database_at w' path = Some (built md rows) /\
    length rows = length records /\
    Inserted (SqlInt (Z.of_nat (length records))) ∈ stdout w'.
Proof.
  intros Hrun.
  apply build_outcome in Hrun
    as (params & md & rows & Hps & Hrows & _ & _ & _ & ->).
  assert (Hlen : length rows = length records).
  { apply Forall2_length in Hps, Hrows. congruence. }
  exists md, rows. rewrite <- Hlen.
  split; [eapply database_at_built; reflexivity|].
  split; [reflexivity|].
  cbn [stdout]. rewrite !elem_of_app, !elem_of_cons. right. right. left. reflexivity.
Qed.

(** C4. After a successful build over a list of records, [collections]
    holds as many rows as the list has records; that number is what
    SELECT COUNT returns on the file and what the script reports. *)
Theorem row_count_equals_record_count path records w w' :
  create_database path (PList records) w = (Ok tt, w') ->
  exists db rows,
    database_at w' path = Some db /\ collections db = Some rows /\
    length rows = length records /\
    exec SelectCountCollections db
      = Ok (db, [[SqlInt (Z.of_nat (length records))]]) /\
    Inserted (SqlInt (Z.of_nat (length records))) ∈ stdout w'.
Proof.
  intros Hrun.
  apply build_row_count in Hrun as (md & rows & Hdb & Hlen & Hout).
  exists (built md rows), rows. rewrite <- Hlen in *.
  repeat split; assumption.
Qed.


End Build.

Section Invariants.
Context `{Engine} `{Converter}.

(** C3, amended. After a successful build, rows of [collections] with the
    same collection_id that is not NULL are the same row, and a row has a
    NULL collection_id exactly when its record has no collection_id field,
    a null one, or a float NaN there, which the engine stores as NULL. *)
Theorem collection_id_unique_when_present path records w w' :
  create_database path (PList records) w = (Ok tt, w') ->
  exists db rows,
    database_at w' path = Some db /\ collections db = Some rows /\
    (forall i j r1 r2,
       rows !! i = Some r1 -> rows !! j = Some r2 ->
       collection_id r1 = collection_id r2 ->
       collection_id r1 <> SqlNull -> i = j) /\
    Forall2 (fun c r => collection_id r = SqlNull <->
                        binds_null (record_field c (lit "collection_id")))
            records rows.
Proof.
  intros Hrun.
  apply build_outcome in Hrun
    as (params & md & rows & Hps & Hrows & _ & Hkey & _ & ->).
  exists (built md rows), rows.
  split; [eapply database_at_built; reflexivity|].
  split; [reflexivity|]. split; [exact Hkey|].
  eapply Forall2_trans; [|exact Hps|exact Hrows].
  intros c p r Hp Hr. cbv beta in Hp, Hr.
  rewrite <- (record_params_collection_id _ _ Hp).
  eapply bind_row_collection_id, Hr.
Qed.


(** C2, amended. The statements of a successful build are, in this order:
    the creation of the three relations with the metadata rows, one INSERT
    per record, the bulk population of the index, the three triggers
    (after insert, after delete, after update as delete then insert), and
    the count.  When the last INSERT is done no trigger exists and the
    index is still empty, so the index is filled by the bulk population
    alone; the finished file has the three triggers. *)
Theorem statements_in_script_order path records w w' :
  create_database path (PList records) w = (Ok tt, w') ->
  exists params md rows,
    Forall2 (fun c p => record_params c = Ok p) records params /\
    sql_trace w'
      = sql_trace w ++ prelude (clock w) ++ map InsertCollection params
        ++ [PopulateFts; CreateTrigger collections_ai;
            CreateTrigger collections_ad; CreateTrigger collections_au;
            SelectCountCollections] /\
    replay (prelude (clock w) ++ map InsertCollection params) empty_database
      = Ok {| metadata := Some md; collections := Some rows;
              collections_fts := Some []; triggers := [] |} /\
    database_at w' path
      = Some {| metadata := Some md; collections := Some rows;
                collections_fts := Some (map fts_projection rows);
                triggers := [collections_ai; collections_ad; collections_au] |} /\
    body collections_au = [FtsDelete OldRow; FtsInsert NewRow].
Proof.
  intros Hrun.
  apply build_outcome in Hrun
    as (params & md & rows & Hps & _ & _ & _ & Hmid & ->).
  exists params, md, rows.
  split; [exact Hps|]. split; [reflexivity|]. split; [exact Hmid|].
  split; [eapply database_at_built; reflexivity|reflexivity].
Qed.

(** C9. When the request fails, times out or is answered with a status
    outside 200 to 299, [main] raises; exactly one request has been sent,
    no statement has reached the engine, the file system is as it was, and
    only the two lines printed before the request have been added. *)
Theorem fetch_failure_aborts_before_database_work argv w :
  fetch_fails w = true ->
  exists e,
    main argv w
    = (Raised e,
       {| fs := fs w; network := tail (network w);
          requests := requests w ++ [API_URL]; clock := clock w;
          sql_trace := sql_trace w;
          stdout := stdout w ++ [Fetching API_URL; SlowNotice] |}).
Proof.
  unfold fetch_fails, main, fetch_collections. intros Hfail.
  unfold mbind at 1. unfold M_bind at 1.
  rewrite !print_bind.
  unfold mbind at 1. unfold M_bind at 1. unfold client_get.
  cbn [network fs requests clock sql_trace stdout].
  rewrite <- app_assoc. cbn [app].
  destruct (network w) as [|[| |status body] rest]; cbn [tail].
  - eexists. reflexivity.
  - eexists. reflexivity.
  - eexists. reflexivity.
  - unfold mbind at 1. unfold M_bind at 1. unfold raise_for_status, lift.
    cbn [status_code]. apply negb_true_iff in Hfail. rewrite Hfail.
    eexists. reflexivity.
Qed.

End Invariants.

(** ** The properties on the sample inputs *)

Lemma row_count_equals_record_count_witness :
  sample_build two_records sample_world
    = (Ok tt, (sample_build two_records sample_world).2) /\
  exists db rows,
    database_at (sample_build two_records sample_world).2 (lit "out.db") = Some db /\
    collections db = Some rows /\
    length rows = length two_records /\
    @exec sample_engine SelectCountCollections db
      = Ok (db, [[SqlInt (Z.of_nat (length two_records))]]) /\
    Inserted (SqlInt (Z.of_nat (length two_records)))
      ∈ stdout (sample_build two_records sample_world).2.
Proof.
  assert (Hrun : sample_build two_records sample_world
                 = (Ok tt, (sample_build two_records sample_world).2))
    by (vm_compute; reflexivity).
  split; [exact Hrun|].
  apply (@row_count_equals_record_count sample_engine sample_converter
           (lit "out.db") two_records sample_world _ Hrun).
Defined.


Lemma collection_id_unique_when_present_witness :
  sample_build two_records sample_world
    = (Ok tt, (sample_build two_records sample_world).2) /\
  exists db rows,
    database_at (sample_build two_records sample_world).2 (lit "out.db") = Some db /\
    collections db = Some rows /\
    (forall i j r1 r2,
       rows !! i = Some r1 -> rows !! j = Some r2 ->
       collection_id r1 = collection_id r2 ->
       collection_id r1 <> SqlNull -> i = j) /\
    Forall2 (fun c r => collection_id r = SqlNull <->
                        binds_null (record_field c (lit "collection_id")))
            two_records rows.
Proof.
  assert (Hrun : sample_build two_records sample_world
                 = (Ok tt, (sample_build two_records sample_world).2))
    by (vm_compute; reflexivity).
  split; [exact Hrun|].
  apply (@collection_id_unique_when_present sample_engine sample_converter
           (lit "out.db") two_records sample_world _ Hrun).
Defined.


Lemma statements_in_script_order_witness :
  sample_build two_records sample_world
    = (Ok tt, (sample_build two_records sample_world).2) /\
  exists params md rows,
    Forall2 (fun c p => @record_params sample_converter c = Ok p)
            two_records params /\
    sql_trace (sample_build two_records sample_world).2
      = sql_trace sample_world ++ prelude (clock sample_world)
        ++ map InsertCollection params
        ++ [PopulateFts; CreateTrigger collections_ai;
            CreateTrigger collections_ad; CreateTrigger collections_au;
            SelectCountCollections] /\
    @replay sample_engine
       (prelude (clock sample_world) ++ map InsertCollection params)
       empty_database
      = Ok {| metadata := Some md; collections := Some rows;
              collections_fts := Some []; triggers := [] |} /\
    database_at (sample_build two_records sample_world).2 (lit "out.db")
      = Some {| metadata := Some md; collections := Some rows;
                collections_fts := Some (map fts_projection rows);
                triggers := [collections_ai; collections_ad; collections_au] |} /\
    body collections_au = [FtsDelete OldRow; FtsInsert NewRow].
Proof.
  assert (Hrun : sample_build two_records sample_world
                 = (Ok tt, (sample_build two_records sample_world).2))
    by (vm_compute; reflexivity).
  split; [exact Hrun|].
  apply (@statements_in_script_order sample_engine sample_converter
           (lit "out.db") two_records sample_world _ Hrun).
Defined.

Lemma fetch_failure_aborts_before_database_work_witness :
  fetch_fails world_with_failing_api = true /\
  exists e,
    @main sample_engine sample_converter [lit "build_collections_db.py"]
      world_with_failing_api
    = (Raised e,
       {| fs := fs world_with_failing_api;
          network := tail (network world_with_failing_api);
          requests := requests world_with_failing_api ++ [API_URL];
          clock := clock world_with_failing_api;
          sql_trace := sql_trace world_with_failing_api;
          stdout := stdout world_with_failing_api ++ [Fetching API_URL; SlowNotice] |}).
Proof.
  assert (Hfail : fetch_fails world_with_failing_api = true) by reflexivity.
  split; [exact Hfail|].
  apply (@fetch_failure_aborts_before_database_work sample_engine sample_converter
           [lit "build_collections_db.py"] world_with_failing_api Hfail).
Defined.

(** C3 as stated fails: two records without a collection_id field are
    loaded, and both rows have a NULL collection_id. *)
Lemma missing_collection_id_stored_as_null :
  exists w' db r1 r2,
    sample_build [PDict ∅; PDict ∅] sample_world = (Ok tt, w') /\
    database_at w' (lit "out.db") = Some db /\
    collections db = Some [r1; r2] /\
    collection_id r1 = SqlNull /\ collection_id r2 = SqlNull.
Proof.
  exists (sample_build [PDict ∅; PDict ∅] sample_world).2.
  vm_compute. eexists _, _, _. repeat split; reflexivity.
Qed.


(** C2 as stated fails: in the statements of a build the INSERT of the
    record and the bulk population come before the first CREATE TRIGGER,
    and the database the INSERT runs on has no trigger. *)
Lemma inserts_precede_trigger_creation :
  exists w' p db6,
    sample_build [sample_record (lit "TCGA-A") []] sample_world = (Ok tt, w') /\
    sql_trace w' !! 6 = Some (InsertCollection p) /\
    sql_trace w' !! 7 = Some PopulateFts /\
    sql_trace w' !! 8 = Some (CreateTrigger collections_ai) /\
    @replay sample_engine (take 6 (sql_trace w')) empty_database = Ok db6 /\
    triggers db6 = [].
Proof.
  exists (sample_build [sample_record (lit "TCGA-A") []] sample_world).2.
  vm_compute. eexists _, _. repeat split; reflexivity.
Qed.

(** Were the triggers created before the INSERTs, as C2 has it, the
    AFTER INSERT trigger and the bulk population would each index the row:
    the order of the script is what keeps one entry per row. *)
Lemma triggers_first_would_index_twice :
  exists p,
    @record_params sample_converter (sample_record (lit "TCGA-A") []) = Ok p /\
    exists db idx,
      @replay sample_engine
         (prelude (clock sample_world)
          ++ [CreateTrigger collections_ai; CreateTrigger collections_ad;
              CreateTrigger collections_au]
          ++ [InsertCollection p; PopulateFts])
         empty_database = Ok db /\
      collections_fts db = Some idx /\
      length (filter (fun e => fts_rowid e = 1%Z) idx) = 2.
Proof.
  eexists. split; [vm_compute; reflexivity|].
  vm_compute. eexists _, _. repeat split; reflexivity.
Qed.

(** * Further properties of the script *)

(** ** The fetcher *)

Lemma fetch_collections_run (w : world) :
  fetch_collections w =
  match network w with
  | [] => (Raised ConnectError, requested API_URL []
             {| fs := fs w; network := network w; requests := requests w;
                clock := clock w; sql_trace := sql_trace w;
                stdout := stdout w ++ [Fetching API_URL; SlowNotice] |})
  | o :: rest =>
      let w1 := requested API_URL rest
             {| fs := fs w; network := network w; requests := requests w;
                clock := clock w; sql_trace := sql_trace w;
                stdout := stdout w ++ [Fetching API_URL; SlowNotice] |} in
      match o with
      | TransportFailure => (Raised ConnectError, w1)
      | TimedOut => (Raised TimeoutException, w1)
      | Response status body =>
          if ((200 <=? status) && (status <=? 299))%Z then
            match body with
            | None => (Raised JSONDecodeError, w1)
            | Some data =>
                match py_getitem data (lit "collections") with
                | Raised e => (Raised e, w1)
                | Ok v =>
                    match py_len v with
                    | Raised e => (Raised e, w1)
                    | Ok n =>
                        (Ok v,
                         {| fs := fs w; network := rest;
                            requests := requests w ++ [API_URL];
                            clock := clock w; sql_trace := sql_trace w;
                            stdout := stdout w
                              ++ [Fetching API_URL; SlowNotice; Fetched n] |})
                    end
                end
            end
          else (Raised (HTTPStatusError status), w1)
      end
  end.
Proof.
  unfold fetch_collections. rewrite !print_bind.
  unfold mbind, M_bind, client_get, raise_for_status, response_json, lift, print,
    requested.
  cbn [network fs requests clock sql_trace stdout status_code json_body].
  rewrite <- !app_assoc. cbn [app].
  destruct (network w) as [|[| |status body] rest]; [reflexivity..|].
  cbn [status_code json_body].
  destruct ((200 <=? status) && (status <=? 299))%Z; [|reflexivity].
  destruct body as [data|]; [|reflexivity].
  destruct (py_getitem data (lit "collections")) as [v|e]; [|reflexivity].
  destruct (py_len v) as [n|e]; [|reflexivity].
  cbn [network fs requests clock sql_trace stdout].
  rewrite <- !app_assoc. reflexivity.
Qed.

(** X1. Whatever the network answers, [fetch_collections] sends exactly
    one request, to the fixed endpoint, consumes one answer, and changes
    neither a file nor the statement trace nor the clock. *)
Theorem fetch_sends_one_request_and_writes_nothing (w : world) :
  requests (fetch_collections w).2 = requests w ++ [API_URL] /\
  network (fetch_collections w).2 = tail (network w) /\
  fs (fetch_collections w).2 = fs w /\
  sql_trace (fetch_collections w).2 = sql_trace w /\
  clock (fetch_collections w).2 = clock w.
Proof.
  rewrite fetch_collections_run.
  destruct (network w) as [|[| |status body] rest]; cbv zeta;
    [repeat split; reflexivity..|].
  destruct ((200 <=? status) && (status <=? 299))%Z; [|repeat split; reflexivity].
  destruct body as [data|]; [|repeat split; reflexivity].
  destruct (py_getitem data (lit "collections")) as [v|e]; [|repeat split; reflexivity].
  destruct (py_len v) as [n|e]; repeat split; reflexivity.
Qed.

(** X2. [fetch_collections] returns a value exactly when the answer has a
    2xx status and a JSON object as body, the object has the key
    collections, and what is under the key has a length; the value returned
    is what is under the key, whatever its type, and the three progress
    lines have been printed. *)
Theorem fetch_returns_what_is_listed (w : world) (v : pyval) (w' : world) :
  fetch_collections w = (Ok v, w') <->
  exists status entries rest n,
    network w = Response status (Some (PDict entries)) :: rest /\
    (200 <= status <= 299)%Z /\
    entries !! lit "collections" = Some v /\
    py_len v = Ok n /\
    w' = {| fs := fs w; network := rest; requests := requests w ++ [API_URL];
            clock := clock w; sql_trace := sql_trace w;
            stdout := stdout w ++ [Fetching API_URL; SlowNotice; Fetched n] |}.
Proof.
  rewrite fetch_collections_run. split.
  - destruct (network w) as [|[| |status body] rest]; try discriminate.
    cbv zeta. destruct ((200 <=? status) && (status <=? 299))%Z eqn:Hs; [|discriminate].
    destruct body as [data|]; [|discriminate].
    destruct (py_getitem data (lit "collections")) as [v0|e] eqn:Hget; [|discriminate].
    destruct (py_len v0) as [n|e] eqn:Hlen; [|discriminate].
    intros [= -> <-].
    destruct data as [| | | | | |entries]; try discriminate Hget.
    simpl in Hget. destruct (entries !! lit "collections") as [v1|] eqn:Hk; [|discriminate].
    injection Hget as ->.
    exists status, entries, rest, n. repeat split; auto; lia.
  - intros (status & entries & rest & n & -> & Hs & Hk & Hlen & ->).
    cbv zeta.
    assert (Hb : ((200 <=? status) && (status <=? 299))%Z = true) by lia.
    rewrite Hb. simpl py_getitem. rewrite Hk, Hlen. reflexivity.
Qed.

(** X3. A 2xx answer whose body cannot be used makes [fetch_collections]
    raise: JSONDecodeError when the body is not JSON, TypeError when the
    JSON value is not an object, KeyError when the object has no key
    collections, and TypeError when the value under the key has no length
    (null, a boolean, a number). *)
Theorem fetch_rejects_unusable_body (w : world) status body rest :
  network w = Response status body :: rest ->
  (200 <= status <= 299)%Z ->
  (fetch_collections w).1 =
  match body with
  | None => Raised JSONDecodeError
  | Some (PDict entries) =>
      match entries !! lit "collections" with
      | None => Raised KeyError
      | Some (PStr s) => Ok (PStr s)
      | Some (PList items) => Ok (PList items)
      | Some (PDict d) => Ok (PDict d)
      | Some _ => Raised TypeError
      end
  | Some _ => Raised TypeError
  end.
Proof.
  intros Hnet Hs. rewrite fetch_collections_run, Hnet. cbv zeta.
  assert (Hb : ((200 <=? status) && (status <=? 299))%Z = true) by lia.
  rewrite Hb. destruct body as [[| | | | | |entries]|]; try reflexivity.
  simpl py_getitem. destruct (entries !! lit "collections") as [[]|]; reflexivity.
Qed.

Section Entry.
Context `{Engine} `{Converter}.

(** X4. When [fetch_collections] raises, for whatever reason, [main] raises
    the same exception in the same world: [create_database] is not
    entered, so no file has been deleted or created and no statement has
    been issued. *)
Theorem main_stops_when_fetch_raises argv (w : world) e w1 :
  fetch_collections w = (Raised e, w1) ->
  main argv w = (Raised e, w1) /\ fs w1 = fs w /\ sql_trace w1 = sql_trace w.
Proof.
  intros Hfetch. split.
  - unfold main. unfold mbind, M_bind. rewrite Hfetch. reflexivity.
  - rewrite fetch_collections_run in Hfetch.
    destruct (network w) as [|[| |status body] rest]; cbv zeta in Hfetch;
      try (injection Hfetch as _ <-; split; reflexivity).
    destruct ((200 <=? status) && (status <=? 299))%Z;
      [|injection Hfetch as _ <-; split; reflexivity].
    destruct body as [data|]; [|injection Hfetch as _ <-; split; reflexivity].
    destruct (py_getitem data (lit "collections")) as [v|e'];
      [|injection Hfetch as _ <-; split; reflexivity].
    destruct (py_len v) as [n|e']; [discriminate|].
    injection Hfetch as _ <-; split; reflexivity.
Qed.

(** X5. [main] builds at the first command-line argument, or at the
    default name when there is none, and ignores further arguments; when
    the endpoint lists a JSON array and [main] returns, the database at
    that path has one row per listed record, and one request was sent. *)
Theorem main_builds_at_chosen_path argv (w w' : world) status entries rest records :
  network w = Response status (Some (PDict entries)) :: rest ->
  entries !! lit "collections" = Some (PList records) ->
  main argv w = (Ok tt, w') ->
  exists db rows,
    database_at w' (nth 1 argv DEFAULT_OUTPUT) = Some db /\
    collections db = Some rows /\
    length rows = length records /\
    requests w' = requests w ++ [API_URL].
Proof.
  intros Hnet Hkey Hmain. unfold main in Hmain.
  apply bind_ok in Hmain as (v & w1 & Hfetch & Hbuild).
  rewrite fetch_collections_run, Hnet in Hfetch. cbv zeta in Hfetch.
  destruct ((200 <=? status) && (status <=? 299))%Z; [|discriminate].
  simpl py_getitem in Hfetch. rewrite Hkey in Hfetch. simpl py_len in Hfetch.
  injection Hfetch as <- <-.
  assert (Hpath : match argv with
                  | _ :: path :: _ => path
                  | _ => DEFAULT_OUTPUT
                  end = nth 1 argv DEFAULT_OUTPUT)
    by (destruct argv as [|? [|? ?]]; reflexivity).
  rewrite Hpath in Hbuild.
  apply build_outcome in Hbuild
    as (params & md & rows & Hps & Hrows & _ & _ & _ & ->).
  exists (built md rows), rows.
  split; [eapply database_at_built; reflexivity|].
  split; [reflexivity|]. split; [|reflexivity].
  apply Forall2_length in Hps, Hrows. congruence.
Qed.

End Entry.

Lemma main_stops_when_fetch_raises_witness :
  fetch_collections world_with_failing_api
    = (Raised (HTTPStatusError 503), (fetch_collections world_with_failing_api).2) /\
  @main sample_engine sample_converter [lit "prog"; lit "x.db"] world_with_failing_api
    = (Raised (HTTPStatusError 503), (fetch_collections world_with_failing_api).2) /\
  fs (fetch_collections world_with_failing_api).2 = fs world_with_failing_api /\
  sql_trace (fetch_collections world_with_failing_api).2
    = sql_trace world_with_failing_api.
Proof.
  assert (Hfetch : fetch_collections world_with_failing_api
            = (Raised (HTTPStatusError 503),
               (fetch_collections world_with_failing_api).2))
    by (vm_compute; reflexivity).
  split; [exact Hfetch|].
  apply (@main_stops_when_fetch_raises sample_engine sample_converter
           [lit "prog"; lit "x.db"] world_with_failing_api _ _ Hfetch).
Defined.

Lemma fetch_rejects_unusable_body_witness :
  network (world_answering (Response 200 (Some (PDict ∅))))
    = Response 200 (Some (PDict ∅)) :: [] /\
  (200 <= 200 <= 299)%Z /\
  (fetch_collections (world_answering (Response 200 (Some (PDict ∅))))).1
    = Raised KeyError.
Proof.
  assert (Hnet : network (world_answering (Response 200 (Some (PDict ∅))))
            = Response 200 (Some (PDict ∅)) :: []) by reflexivity.
  assert (Hs : (200 <= 200 <= 299)%Z) by lia.
  split; [exact Hnet|]. split; [exact Hs|].
  exact (fetch_rejects_unusable_body
           (world_answering (Response 200 (Some (PDict ∅)))) 200%Z
           (Some (PDict ∅)) [] Hnet Hs).
Defined.

Lemma main_builds_at_chosen_path_witness :
  network world_with_working_api
    = Response 200 (Some (PDict (<[lit "collections" := PList two_records]> ∅)))
      :: [] /\
  (<[lit "collections" := PList two_records]> (∅ : gmap str pyval))
    !! lit "collections" = Some (PList two_records) /\
  @main sample_engine sample_converter [lit "prog"; lit "x.db"; lit "more"]
    world_with_working_api
    = (Ok tt, (@main sample_engine sample_converter
                 [lit "prog"; lit "x.db"; lit "more"] world_with_working_api).2) /\
  exists db rows,
    database_at (@main sample_engine sample_converter
                   [lit "prog"; lit "x.db"; lit "more"] world_with_working_api).2
      (nth 1 [lit "prog"; lit "x.db"; lit "more"] DEFAULT_OUTPUT) = Some db /\
    collections db = Some rows /\
    length rows = length two_records /\
    requests (@main sample_engine sample_converter
                [lit "prog"; lit "x.db"; lit "more"] world_with_working_api).2
      = requests world_with_working_api ++ [API_URL].
Proof.
  assert (Hnet : network world_with_working_api
            = Response 200
                (Some (PDict (<[lit "collections" := PList two_records]> ∅)))
              :: []) by reflexivity.
  assert (Hkey : (<[lit "collections" := PList two_records]> (∅ : gmap str pyval))
                   !! lit "collections" = Some (PList two_records))
    by (vm_compute; reflexivity).
  assert (Hmain : @main sample_engine sample_converter
                    [lit "prog"; lit "x.db"; lit "more"] world_with_working_api
            = (Ok tt, (@main sample_engine sample_converter
                         [lit "prog"; lit "x.db"; lit "more"]
                         world_with_working_api).2))
    by (vm_compute; reflexivity).
  split; [exact Hnet|]. split; [exact Hkey|]. split; [exact Hmain|].
  apply (@main_builds_at_chosen_path sample_engine sample_converter
           [lit "prog"; lit "x.db"; lit "more"] world_with_working_api _
           200%Z _ [] two_records Hnet Hkey Hmain).
Defined.

(** ** Trimming and the length of the repair *)

Lemma lstrip_drop (s : str) : exists k, lstrip s = drop k s.
Proof.
  induction s as [|c t [k IH]]; [exists 0; reflexivity|].
  simpl. destruct (is_space c); [exists (S k); exact IH|exists 0; reflexivity].
Qed.

Lemma lstrip_head (s : str) c : head (lstrip s) = Some c -> is_space c = false.
Proof.
  induction s as [|a t IH]; simpl; [discriminate|].
  destruct (is_space a) eqn:Ha; [exact IH|]. simpl. intros [= <-]. exact Ha.
Qed.

Lemma last_drop_nonempty {A} (l : list A) k x :
  last (drop k l) = Some x -> last l = Some x.
Proof.
  revert l; induction k as [|k IH]; intros [|a l]; simpl; auto.
  intros Hl. specialize (IH _ Hl). destruct l; [discriminate|exact IH].
Qed.

Lemma head_rev {A} (l : list A) : head (rev l) = last l.
Proof.
  induction l as [|x l _] using rev_ind; [reflexivity|].
  rewrite rev_app_distr, last_snoc. reflexivity.
Qed.

Lemma last_rev {A} (l : list A) : last (rev l) = head l.
Proof. destruct l as [|a l]; [reflexivity|]. simpl. apply last_snoc. Qed.

Lemma strip_trimmed (s : str) :
  (forall c, head (strip s) = Some c -> is_space c = false) /\
  (forall c, last (strip s) = Some c -> is_space c = false).
Proof.
  unfold strip. split; intros c Hc.
  - rewrite head_rev in Hc.
    destruct (lstrip_drop (rev (lstrip s))) as [k Hk]. rewrite Hk in Hc.
    apply last_drop_nonempty in Hc. rewrite last_rev in Hc.
    apply lstrip_head in Hc. exact Hc.
  - rewrite last_rev in Hc. apply lstrip_head in Hc. exact Hc.
Qed.

Section Trim.
Context `{Converter}.

(** X6. Whatever the converter returns, the text [html_to_markdown] returns
    neither begins nor ends with a whitespace character. *)
Theorem html_to_markdown_result_is_trimmed (html : pyval) (out : str) :
  html_to_markdown html = Ok out ->
  (forall c, head out = Some c -> is_space c = false) /\
  (forall c, last out = Some c -> is_space c = false).
Proof.
  unfold html_to_markdown. destruct (negb (py_truthy html)).
  - intros [= <-]. split; intros c; discriminate.
  - destruct html; try discriminate.
    destruct (markdownify [lit "i"] (Re.sub s)) as [md|e]; simpl; [|discriminate].
    intros [= <-]. apply strip_trimmed.
Qed.

End Trim.

Lemma replacement_length x : length (Re.replacement x) = 7 + length x.
Proof. unfold Re.replacement. rewrite !length_app. simpl. lia. Qed.

Lemma sub_length (s : str) : length (Re.sub s) <= length s.
Proof.
  remember (length s) as n eqn:Hn. revert s Hn.
  induction n as [n IH] using lt_wf_ind. intros [|c t] Hn;
    [rewrite Re.sub_equation_1; simpl; lia|].
  destruct (Re.match_at (c :: t)) as [[x rest]|] eqn:Hm.
  - rewrite (sub_hit _ _ _ Hm). apply match_at_spec in Hm.
    pose proof (matches_shorter _ _ _ Hm) as Hlt.
    assert (IHr : length (Re.sub rest) <= length rest)
      by (apply (IH (length rest)); [rewrite Hn; exact Hlt|reflexivity]).
    destruct Hm as (Hs & _ & _). rewrite Hn, Hs.
    rewrite !length_app, replacement_length.
    change (length Re.PATTERN_HEAD) with 13. simpl. lia.
  - rewrite (sub_skip _ _ Hm).
    assert (IHt : length (Re.sub t) <= length t)
      by (apply (IH (length t)); [rewrite Hn; simpl; lia|reflexivity]).
    rewrite Hn. simpl. lia.
Qed.

Lemma sub_hit_length s x rest :
  Re.match_at s = Some (x, rest) ->
  length (Re.sub s) + 7 + length rest = length s + length (Re.sub rest).
Proof.
  intros Hm. rewrite (sub_hit _ _ _ Hm). apply match_at_spec in Hm.
  destruct Hm as (-> & _ & _).
  rewrite !length_app, replacement_length.
  change (length Re.PATTERN_HEAD) with 13. simpl. lia.
Qed.

(** X7. The repair never lengthens a text; each replacement shortens it by
    seven characters; and the text comes back unchanged exactly when the
    pattern matches at none of its positions. *)
Theorem sub_changes_exactly_what_matches (s : str) :
  length (Re.sub s) <= length s /\
  (forall x rest, Re.match_at s = Some (x, rest) ->
     length (Re.sub s) + 7 + length rest = length s + length (Re.sub rest)) /\
  (Re.sub s = s <-> forall u v, s = u ++ v -> Re.match_at v = None).
Proof.
  split; [apply sub_length|]. split.
  - apply sub_hit_length.
  - split; [|apply sub_no_match].
    induction s as [|c t IH]; intros Hs u v Huv.
    + destruct u; [|discriminate]. simpl in Huv. subst v. reflexivity.
    + destruct (Re.match_at (c :: t)) as [[x rest]|] eqn:Hm.
      { apply sub_hit_length in Hm. pose proof (sub_length rest).
        rewrite Hs in Hm. lia. }
      rewrite (sub_skip _ _ Hm) in Hs. injection Hs as Hs.
      destruct u as [|a u]; simpl in Huv.
      * subst v. exact Hm.
      * injection Huv as _ Huv. eapply IH; eauto.
Qed.

Section Rows.
Context `{Engine} `{Converter}.

Lemma record_params_inv c p :
  record_params c = Ok p ->
  exists entries d,
    c = PDict entries /\
    html_to_markdown (record_description c) = Ok d /\
    p = {| p_collection_id := record_field c (lit "collection_id");
           p_cancer_type := record_field c (lit "cancer_type");
           p_location := record_field c (lit "location");
           p_species := record_field c (lit "species");
           p_subject_count := record_field c (lit "subject_count");
           p_date_updated := record_field c (lit "date_updated");
           p_doi := record_field c (lit "doi");
           p_image_types := record_field c (lit "image_types");
           p_supporting_data := record_field c (lit "supporting_data");
           p_description := PStr d |}.
Proof.
  unfold record_params. intros Hp.
  apply result_bind_ok in Hp as (html & Hhtml & Hp).
  destruct c as [| | | | | |entries]; try discriminate Hhtml.
  simpl in Hhtml. injection Hhtml as <-.
  apply result_bind_ok in Hp as (d & Hd & Hp).
  repeat (apply result_bind_ok in Hp as (? & [= <-] & Hp)).
  injection Hp as <-. exists entries, d. repeat split. exact Hd.
Qed.

Lemma bind_row_inv p rid r :
  bind_row p rid = Ok r ->
  exists v1 v2 v3 v4 v5 v6 v7 v8 v9 v10,
    bind_param (p_collection_id p) = Ok v1 /\
    bind_param (p_cancer_type p) = Ok v2 /\
    bind_param (p_location p) = Ok v3 /\
    bind_param (p_species p) = Ok v4 /\
    bind_param (p_subject_count p) = Ok v5 /\
    bind_param (p_date_updated p) = Ok v6 /\
    bind_param (p_doi p) = Ok v7 /\
    bind_param (p_image_types p) = Ok v8 /\
    bind_param (p_supporting_data p) = Ok v9 /\
    bind_param (p_description p) = Ok v10 /\
    r = {| rowid := rid;
           collection_id := text_affinity v1; cancer_type := text_affinity v2;
           location := text_affinity v3; species := text_affinity v4;
           subject_count := integer_affinity v5;
           date_updated := text_affinity v6; doi := text_affinity v7;
           image_types := text_affinity v8;
           supporting_data := text_affinity v9;
           description := text_affinity v10 |}.
Proof.
  unfold bind_row. intros Hb.
  apply result_bind_ok in Hb as (v1 & H1 & Hb).
  apply result_bind_ok in Hb as (v2 & H2 & Hb).
  apply result_bind_ok in Hb as (v3 & H3 & Hb).
  apply result_bind_ok in Hb as (v4 & H4 & Hb).
  apply result_bind_ok in Hb as (v5 & H5 & Hb).
  apply result_bind_ok in Hb as (v6 & H6 & Hb).
  apply result_bind_ok in Hb as (v7 & H7 & Hb).
  apply result_bind_ok in Hb as (v8 & H8 & Hb).
  apply result_bind_ok in Hb as (v9 & H9 & Hb).
  apply result_bind_ok in Hb as (v10 & H10 & Hb).
  injection Hb as <-.
  exists v1, v2, v3, v4, v5, v6, v7, v8, v9, v10. repeat split; assumption.
Qed.

Lemma bind_param_text s x : bind_param (PStr s) = Ok x -> x = SqlText s.
Proof. simpl. destruct (existsb _ _); congruence. Qed.

Lemma bind_param_none x : bind_param PNone = Ok x -> x = SqlNull.
Proof. simpl. congruence. Qed.

Lemma bind_param_bindable v : (exists x, bind_param v = Ok x) <-> bindable v = true.
Proof.
  destruct v as [|b|z|bits|s|items|entries]; simpl;
    try (split; [reflexivity|eauto]); try (split; [intros [? ?]|]; discriminate).
  - destruct (_ && _); split; eauto; try discriminate. intros [? ?]; discriminate.
  - destruct (is_nan bits); eauto.
  - destruct (existsb _ _); simpl; split; eauto; try discriminate.
    intros [? ?]; discriminate.
Qed.

(** The record and the row at one position of a successful build. *)
Lemma build_rows path records w w' :
  create_database path (PList records) w = (Ok tt, w') ->
  exists md rows,
    database_at w' path = Some (built md rows) /\
    length rows = length records /\
    ordered rows /\ keyed rows /\
    forall i c r, records !! i = Some c -> rows !! i = Some r ->
      exists p, record_params c = Ok p /\ bind_row p (rowid r) = Ok r.
Proof.
  intros Hrun.
  apply build_outcome in Hrun
    as (params & md & rows & Hps & Hrows & Hord & Hkey & _ & ->).
  exists md, rows.
  split; [eapply database_at_built; reflexivity|].
  split; [apply Forall2_length in Hps, Hrows; congruence|].
  split; [exact Hord|]. split; [exact Hkey|].
  intros i c r Hc Hr.
  destruct (Forall2_lookup_l _ _ _ _ _ Hps Hc) as (p & Hp & Hcp).
  exists p. split; [exact Hcp|].
  eapply (Forall2_lookup_lr _ _ _ _ _ _ Hrows); eassumption.
Qed.


(** X8. The rows of a successful build mirror the records in their order:
    the row of the record at position i has rowid i + 1; its description
    is what [html_to_markdown] returned for the record's description (the
    empty string for a record without one); each of the eight text
    columns holds a string field as it is and NULL for a field that is
    absent or null; and an integer subject_count reaches the column
    through its INTEGER affinity. *)
Theorem rows_mirror_records path records w w' :
  create_database path (PList records) w = (Ok tt, w') ->
  exists db rows,
    database_at w' path = Some db /\ collections db = Some rows /\
    length rows = length records /\
    forall i c r, records !! i = Some c -> rows !! i = Some r ->
      rowid r = Z.of_nat (S i) /\
      (exists d, html_to_markdown (record_description c) = Ok d /\
                 description r = SqlText d) /\
      (forall key column s, (key, column) ∈ text_columns ->
         record_field c key = PStr s -> column r = SqlText s) /\
      (forall key column, (key, column) ∈ text_columns ->
         record_field c key = PNone -> column r = SqlNull) /\
      (forall z, record_field c (lit "subject_count") = PInt z ->
         subject_count r = integer_affinity (SqlInt z)).
Proof.
  intros Hrun.
  apply build_rows in Hrun as (md & rows & Hdb & Hlen & Hord & _ & Hrows).
  exists (built md rows), rows. do 3 (split; [assumption || reflexivity|]).
  intros i c r Hc Hr.
  destruct (Hrows i c r Hc Hr) as (p & Hp & Hb).
  apply record_params_inv in Hp as (entries & d & -> & Hd & ->).
  apply bind_row_inv in Hb
    as (v1 & v2 & v3 & v4 & v5 & v6 & v7 & v8 & v9 & v10
        & H1 & H2 & H3 & H4 & H5 & H6 & H7 & H8 & H9 & H10 & Hr').
  cbn [p_collection_id p_cancer_type p_location p_species p_subject_count
       p_date_updated p_doi p_image_types p_supporting_data p_description]
    in H1, H2, H3, H4, H5, H6, H7, H8, H9, H10.
  split; [apply Hord, Hr|]. split; [|split; [|split]].
  - exists d. split; [exact Hd|]. rewrite Hr'. cbn [description].
    apply bind_param_text in H10. rewrite H10. reflexivity.
  - intros key column s Hin Hfield. unfold text_columns in Hin.
    rewrite Hr'.
    repeat (apply elem_of_cons in Hin as [Hin|Hin];
            [injection Hin as -> ->; rewrite Hfield in *;
             match goal with
             | Hb : bind_param (PStr s) = Ok ?v |- _ =>
                 apply bind_param_text in Hb; rewrite Hb
             end; reflexivity|]).
    apply elem_of_nil in Hin. destruct Hin.
  - intros key column Hin Hfield. unfold text_columns in Hin.
    rewrite Hr'.
    repeat (apply elem_of_cons in Hin as [Hin|Hin];
            [injection Hin as -> ->; rewrite Hfield in *;
             match goal with
             | Hb : bind_param PNone = Ok ?v |- _ =>
                 apply bind_param_none in Hb; rewrite Hb
             end; reflexivity|]).
    apply elem_of_nil in Hin. destruct Hin.
  - intros z Hz. rewrite Hr'. cbn [subject_count]. rewrite Hz in H5.
    simpl in H5. destruct (_ && _); [|discriminate]. injection H5 as <-.
    reflexivity.
Qed.

(** X9. A list in which two records at different positions have the same
    string as collection_id is never loaded: [create_database] does not
    return. *)
Theorem duplicate_collection_id_is_rejected path records w i j ci cj id :
  i <> j ->
  records !! i = Some ci -> records !! j = Some cj ->
  record_field ci (lit "collection_id") = PStr id ->
  record_field cj (lit "collection_id") = PStr id ->
  (create_database path (PList records) w).1 <> Ok tt.
Proof.
  intros Hij Hi Hj Hidi Hidj Hok.
  destruct (create_database path (PList records) w) as [r w'] eqn:Hrun.
  simpl in Hok. subst r.
  apply build_rows in Hrun as (md & rows & _ & Hlen & _ & Hkey & Hrows).
  assert (Hri : is_Some (rows !! i))
    by (apply lookup_lt_is_Some; rewrite Hlen; eapply lookup_lt_Some; eauto).
  assert (Hrj : is_Some (rows !! j))
    by (apply lookup_lt_is_Some; rewrite Hlen; eapply lookup_lt_Some; eauto).
  destruct Hri as [ri Hri], Hrj as [rj Hrj].
  assert (Hstored : forall k c r, records !! k = Some c -> rows !! k = Some r ->
            record_field c (lit "collection_id") = PStr id ->
            collection_id r = SqlText id).
  { intros k c r Hc Hr Hid. destruct (Hrows k c r Hc Hr) as (p & Hp & Hb).
    apply record_params_inv in Hp as (entries & d & -> & _ & ->).
    apply bind_row_inv in Hb as (v1 & ? & ? & ? & ? & ? & ? & ? & ? & ? & H1 & Hb).
    cbn [p_collection_id] in H1. rewrite Hid in H1.
    apply bind_param_text in H1. subst v1.
    destruct Hb as (_ & _ & _ & _ & _ & _ & _ & _ & _ & ->). reflexivity. }
  apply Hij. eapply (Hkey i j ri rj Hri Hrj).
  - rewrite (Hstored i ci ri), (Hstored j cj rj) by assumption. reflexivity.
  - rewrite (Hstored i ci ri) by assumption. discriminate.
Qed.

(** X10. What a successful build has accepted: every record is an object;
    its description is a string or falsy; and each of its nine other
    fields is a value the adapter binds, that is null, a boolean, a float,
    an integer of 64 bits or a string without lone surrogates, and never
    a list or an object. *)
Theorem build_accepts_only_flat_records path records w w' :
  create_database path (PList records) w = (Ok tt, w') ->
  forall c, c ∈ records ->
    (exists entries, c = PDict entries) /\
    (py_truthy (record_description c) = false \/
     exists s, record_description c = PStr s) /\
    forall key, key ∈ field_keys -> bindable (record_field c key) = true.
Proof.
  intros Hrun c Hc.
  apply build_rows in Hrun as (md & rows & _ & Hlen & _ & _ & Hrows).
  apply list_elem_of_lookup in Hc as [i Hi].
  assert (Hr : is_Some (rows !! i))
    by (apply lookup_lt_is_Some; rewrite Hlen; eapply lookup_lt_Some; eauto).
  destruct Hr as [r Hr].
  destruct (Hrows i c r Hi Hr) as (p & Hp & Hb).
  apply record_params_inv in Hp as (entries & d & -> & Hd & ->).
  split; [eauto|]. split.
  - remember (record_description (PDict entries)) as desc eqn:Hdesc.
    clear Hdesc. unfold html_to_markdown in Hd.
    destruct (py_truthy desc); [|left; reflexivity].
    right. destruct desc; try discriminate. eauto.
  - apply bind_row_inv in Hb
      as (v1 & v2 & v3 & v4 & v5 & v6 & v7 & v8 & v9 & v10
          & H1 & H2 & H3 & H4 & H5 & H6 & H7 & H8 & H9 & _).
    cbn [p_collection_id p_cancer_type p_location p_species p_subject_count
         p_date_updated p_doi p_image_types p_supporting_data]
      in H1, H2, H3, H4, H5, H6, H7, H8, H9.
    intros key Hin. unfold field_keys in Hin. apply bind_param_bindable.
    repeat (apply elem_of_cons in Hin as [->|Hin]; [eauto|]).
    apply elem_of_nil in Hin. destruct Hin.
Qed.

End Rows.

Section Store.
Context `{Engine} `{Converter}.

Lemma replay_app_ok a b db final :
  replay (a ++ b) db = Ok final ->
  exists mid, replay a db = Ok mid /\ replay b mid = Ok final.
Proof.
  revert db. induction a as [|s a IH]; intros db; simpl.
  - eauto.
  - destruct (exec s db) as [[d out]|e]; simpl; [apply IH|discriminate].
Qed.

Lemma replay_prelude_metadata built_at db :
  replay (prelude built_at) empty_database = Ok db ->
  db = before_load (metadata_rows built_at) [].
Proof.
  unfold prelude. simpl. unfold insert_metadata. simpl.
  destruct (existsb is_surrogate built_at); simpl; [congruence|].
  vm_compute. intros [= <-]. reflexivity.
Qed.

(** X11. The metadata relation of a successful build holds exactly three
    rows, in this order: the schema version 1, the time the clock showed
    when the build ran, and the URL of the endpoint. *)
Theorem metadata_records_the_build path records w w' :
  create_database path (PList records) w = (Ok tt, w') ->
  exists db,
    database_at w' path = Some db /\
    metadata db
      = Some [(SqlText (lit "schema_version"), SqlText (decimal SCHEMA_VERSION));
              (SqlText (lit "built_at"), SqlText (clock w));
              (SqlText (lit "source_url"), SqlText API_URL)].
Proof.
  intros Hrun.
  apply build_outcome in Hrun
    as (params & md & rows & _ & _ & _ & _ & Hmid & ->).
  exists (built md rows). split; [eapply database_at_built; reflexivity|].
  apply replay_app_ok in Hmid as (mid & Hpre & Hins).
  apply replay_prelude_metadata in Hpre. subst mid.
  destruct (replay_inserts params (before_load (metadata_rows (clock w)) [])
              (before_load md rows) [] eq_refl eq_refl)
    as (added & Hdb & _); [| |exact Hins|].
  - intros i r Hi. rewrite lookup_nil in Hi. discriminate.
  - intros i j r1 r2 Hi. rewrite lookup_nil in Hi. discriminate.
  - apply (f_equal metadata) in Hdb. simpl in Hdb. cbn [built metadata].
    rewrite Hdb. reflexivity.
Qed.

Lemma rowid_filter_matches (P : fts_entry -> Prop) `{forall e, Decision (P e)}
    (r : coll_row) (rows : list coll_row) :
  NoDup (map rowid rows) -> r ∈ rows ->
  filter (fun e => fts_rowid e = rowid r) (filter P (map fts_projection rows))
  = if decide (P (fts_projection r)) then [fts_projection r] else [].
Proof.
  intros Hnd Hr. destruct (decide (P (fts_projection r))) as [HP|HP].
  - apply rowid_filter_present; assumption.
  - induction rows as [|a rows IH]; [reflexivity|].
    simpl in Hnd. apply NoDup_cons in Hnd as [Ha Hnd].
    apply elem_of_cons in Hr. simpl. rewrite filter_cons.
    destruct Hr as [<-|Hr].
    + rewrite decide_False by exact HP. apply rowid_filter_absent, Ha.
    + assert (Hne : rowid a <> rowid r).
      { intros Heq. apply Ha. rewrite Heq. apply list_elem_of_fmap. eauto. }
      destruct (decide (P (fts_projection a))).
      * rewrite filter_cons, decide_False by (simpl; exact Hne). apply IH; assumption.
      * apply IH; assumption.
Qed.


End Store.

Section Sync.
Context `{Engine} `{Converter}.

Lemma insert_into_built p md rows db' out :
  exec (InsertCollection p) (built md rows) = Ok (db', out) ->
  exists row,
    bind_row p (next_rowid rows) = Ok row /\
    key_conflict collection_id (collection_id row) rows = false /\
    db' = built md (rows ++ [row]) /\ out = [].
Proof.
  unfold exec, insert_collection. cbn [built collections relation].
  intros Hrun.
  apply result_bind_ok in Hrun as (db1 & Hins & [= <- <-]).
  apply result_bind_ok in Hins as (rows' & [= <-] & Hins).
  apply result_bind_ok in Hins as (row & Hrow & Hins).
  exists row. split; [exact Hrow|].
  destruct (key_conflict collection_id (collection_id row) rows); [discriminate|].
  split; [reflexivity|]. split; [|reflexivity].
  vm_compute in Hins. injection Hins as <-.
  unfold built. rewrite map_app. reflexivity.
Qed.

Lemma remove_entry_projection rows i r :
  NoDup (map rowid rows) -> rows !! i = Some r ->
  remove_entry (fts_projection r) (map fts_projection rows)
  = map fts_projection (delete i rows).
Proof.
  revert i. induction rows as [|a rows IH]; intros i Hnd Hi; [discriminate|].
  simpl in Hnd. apply NoDup_cons in Hnd as [Ha Hnd].
  destruct i as [|i]; simpl in *.
  - injection Hi as ->. rewrite bool_decide_eq_true_2 by reflexivity. reflexivity.
  - rewrite bool_decide_eq_false_2.
    + f_equal. apply IH; assumption.
    + intros Heq. apply Ha. apply (f_equal fts_rowid) in Heq. simpl in Heq.
      rewrite Heq. apply list_elem_of_fmap. exists r. split; [reflexivity|].
      eapply list_elem_of_lookup_2, Hi.
Qed.

(** X13. A record inserted into the database of a successful build, by the
    statement the loader itself uses, is indexed by the AFTER INSERT
    trigger: the new row takes the next rowid and the index is again one
    entry per row, in the order of the rows. *)
Theorem insert_after_build_is_indexed path records w w' :
  create_database path (PList records) w = (Ok tt, w') ->
  exists db rows,
    database_at w' path = Some db /\ collections db = Some rows /\
    forall p db' out, exec (InsertCollection p) db = Ok (db', out) ->
      exists row,
        rowid row = Z.of_nat (S (length rows)) /\
        collections db' = Some (rows ++ [row]) /\
        collections_fts db' = Some (map fts_projection (rows ++ [row])) /\
        triggers db' = triggers db.
Proof.
  intros Hrun.
  apply build_outcome in Hrun
    as (params & md & rows & _ & _ & Hord & _ & _ & ->).
  exists (built md rows), rows.
  split; [eapply database_at_built; reflexivity|]. split; [reflexivity|].
  intros p db' out Hins.
  apply insert_into_built in Hins as (row & Hrow & _ & -> & _).
  exists row. apply bind_row_rowid in Hrow.
  rewrite next_rowid_ordered in Hrow by exact Hord.
  repeat split. exact Hrow.
Qed.

(** X14. When a row of the database of a successful build is deleted, the
    AFTER DELETE trigger removes exactly the entry of that row: the index
    is one entry per remaining row. *)
Theorem delete_after_build_is_unindexed path records w w' :
  create_database path (PList records) w = (Ok tt, w') ->
  exists db rows,
    database_at w' path = Some db /\ collections db = Some rows /\
    forall i old, rows !! i = Some old ->
      exists db',
        fire AfterDelete (Some old) None (set_collections (delete i rows) db)
          = Ok db' /\
        collections db' = Some (delete i rows) /\
        collections_fts db' = Some (map fts_projection (delete i rows)).
Proof.
  intros Hrun.
  apply build_outcome in Hrun
    as (params & md & rows & _ & _ & Hord & _ & _ & ->).
  apply ordered_NoDup in Hord.
  exists (built md rows), rows.
  split; [eapply database_at_built; reflexivity|]. split; [reflexivity|].
  intros i old Hi. eexists. split; [|split].
  - unfold fire, built. cbn. reflexivity.
  - reflexivity.
  - cbn [collections_fts set_fts]. f_equal.
    apply remove_entry_projection; assumption.
Qed.


End Sync.

Section Success.
Context `{Engine} `{Converter}.

Lemma bind_run {A B} (m : M A) (k : A -> M B) w a w1 :
  m w = (Ok a, w1) -> (m ≫= k) w = k a w1.
Proof. intros Hm. unfold mbind, M_bind. rewrite Hm. reflexivity. Qed.

Lemma execute_run s conn w db' out :
  exec s (conn_db conn) = Ok (db', out) ->
  execute s conn w
  = (Ok {| conn_path := conn_path conn; conn_db := db';
           in_transaction := in_transaction conn || is_dml s;
           cursor_rows := out |},
     if match s with SelectCountCollections => false
        | _ => negb (in_transaction conn || is_dml s) end
     then store (conn_path conn) db' (log_stmt s w) else log_stmt s w).
Proof. intros Hexec. unfold execute. rewrite Hexec. reflexivity. Qed.

Lemma ordered_app_l rows added : ordered (rows ++ added) -> ordered rows.
Proof.
  intros Hord i r Hi. apply Hord. apply lookup_app_l_Some, Hi.
Qed.

Lemma keyed_app_l rows added : keyed (rows ++ added) -> keyed rows.
Proof.
  intros Hkey i j r1 r2 Hi Hj. apply Hkey; apply lookup_app_l_Some; assumption.
Qed.

Lemma key_conflict_keyed rows row :
  keyed (rows ++ [row]) ->
  key_conflict collection_id (collection_id row) rows = false.
Proof.
  intros Hkey. unfold key_conflict.
  destruct (collection_id row) eqn:Hk; [reflexivity| | |];
    (apply not_true_is_false; intros Hex;
     apply existsb_exists in Hex as (r & Hr & Heq);
     apply bool_decide_eq_true_1 in Heq;
     apply list_elem_of_In, list_elem_of_lookup in Hr as [i Hi];
     assert (Hij : i = length rows);
     [ apply (Hkey i (length rows) r row);
       [ apply lookup_app_l_Some, Hi
       | rewrite lookup_app_r, Nat.sub_diag by lia; reflexivity
       | congruence
       | rewrite Heq; discriminate ]
     | apply lookup_lt_Some in Hi; lia ]).
Qed.

(** The inserts of rows with the rowids and keys of a build succeed. *)
Lemma replay_inserts_run md params : forall rows added,
  Forall2 (fun p r => bind_row p (rowid r) = Ok r) params added ->
  ordered (rows ++ added) -> keyed (rows ++ added) ->
  replay (map InsertCollection params) (before_load md rows)
  = Ok (before_load md (rows ++ added)).
Proof.
  induction params as [|p params IH]; intros rows added Hb Hord Hkey.
  - apply Forall2_nil_inv_l in Hb as ->. rewrite app_nil_r. reflexivity.
  - apply Forall2_cons_inv_l in Hb as (row & added' & Hrow & Hb & ->).
    assert (Hsplit : rows ++ row :: added' = (rows ++ [row]) ++ added')
      by (rewrite <- app_assoc; reflexivity).
    rewrite Hsplit in Hord, Hkey.
    assert (Hrid : rowid row = next_rowid rows).
    { rewrite next_rowid_ordered
        by (eapply ordered_app_l, ordered_app_l; exact Hord).
      apply (Hord (length rows)).
      rewrite <- app_assoc, lookup_app_r, Nat.sub_diag by lia. reflexivity. }
    cbn [map replay exec]. unfold insert_collection.
    cbn [before_load collections relation mbind result_bind].
    rewrite <- Hrid, Hrow. cbn [mbind result_bind].
    rewrite key_conflict_keyed by (eapply keyed_app_l; exact Hkey).
    unfold fire. cbn [triggers set_collections foldl fst].
    rewrite Hsplit. apply (IH (rows ++ [row]) added' Hb Hord Hkey).
Qed.

(** The loop over records whose parameters the engine accepts. *)
Lemma for_each_insert_run items : forall params conn w db',
  Forall2 (fun c p => record_params c = Ok p) items params ->
  in_transaction conn = true -> cursor_rows conn = [] ->
  replay (map InsertCollection params) (conn_db conn) = Ok db' ->
  for_each insert_record items conn w
  = (Ok {| conn_path := conn_path conn; conn_db := db';
           in_transaction := true; cursor_rows := [] |},
     logged (map InsertCollection params) w).
Proof.
  induction items as [|c items IH]; intros params conn w db' Hps Htx Hcur Hrun.
  - apply Forall2_nil_inv_l in Hps as ->. simpl in Hrun. injection Hrun as <-.
    simpl. unfold mret, M_ret, logged. rewrite app_nil_r.
    destruct conn, w; simpl in *; subst; reflexivity.
  - apply Forall2_cons_inv_l in Hps as (p & ps & Hp & Hps & ->).
    simpl in Hrun. apply result_bind_ok in Hrun as ([db1 out] & Hexec & Hrun).
    pose proof Hexec as Hout. simpl in Hout.
    apply result_bind_ok in Hout as (? & _ & [= _ <-]).
    assert (Hstep : insert_record c conn w
              = (Ok {| conn_path := conn_path conn; conn_db := db1;
                       in_transaction := true; cursor_rows := [] |},
                 log_stmt (InsertCollection p) w)).
    { unfold insert_record, mbind, M_bind, lift. rewrite Hp.
      rewrite (execute_run (InsertCollection p) conn w db1 [] Hexec), Htx.
      reflexivity. }
    cbn [for_each]. rewrite (bind_run _ _ _ _ _ Hstep).
    rewrite (IH ps {| conn_path := conn_path conn; conn_db := db1;
                      in_transaction := true; cursor_rows := [] |}
               (log_stmt (InsertCollection p) w) db' Hps eq_refl eq_refl Hrun).
    cbn [conn_path]. f_equal. unfold logged, log_stmt.
    cbn [fs network requests clock sql_trace stdout map].
    rewrite <- app_assoc. reflexivity.
Qed.


Lemma replay_prelude_run built_at :
  existsb is_surrogate built_at = false ->
  replay (prelude built_at) empty_database
  = Ok (before_load (metadata_rows built_at) []).
Proof.
  intros Hclean. unfold prelude. simpl. unfold insert_metadata. simpl.
  rewrite Hclean. reflexivity.
Qed.

(** The world a build leaves when it has stored [rows]. *)
Lemma build_run path records params rows w :
  fs w !! path <> Some Directory ->
  existsb is_surrogate (clock w) = false ->
  Forall2 (fun c p => record_params c = Ok p) records params ->
  Forall2 (fun p r => bind_row p (rowid r) = Ok r) params rows ->
  ordered rows -> keyed rows ->
  create_database path (PList records) w
  = (Ok tt,
     {| fs := <[path := File (Database (built (metadata_rows (clock w)) rows))]> (fs w);
        network := network w; requests := requests w; clock := clock w;
        sql_trace := sql_trace w ++ statements (clock w) params;
        stdout := stdout w ++ [Creating path;
                               Inserted (SqlInt (Z.of_nat (length rows)));
                               Created path
                                 (file_size (built (metadata_rows (clock w)) rows))] |}).
Proof.
  intros Hdir Hclean Hps Hrows Hord Hkey.
  pose proof (replay_inserts_run (metadata_rows (clock w)) params [] rows
                Hrows Hord Hkey) as Hins.
  unfold create_database. rewrite print_bind, path_exists_bind.
  cbn [fs].
  set (w1 := {| fs := fs w; network := network w; requests := requests w;
                clock := clock w; sql_trace := sql_trace w;
                stdout := stdout w ++ [Creating path] |}).
  assert (Hstart : forall {B} (k : unit -> M B),
            ((if bool_decide (is_Some (fs w !! path)) then unlink path
              else mret tt) ≫= k) w1
            = k tt (set_fs (delete path (fs w)) w1)).
  { intros B k. destruct (fs w !! path) as [[f|]|] eqn:Hfs.
    - rewrite bool_decide_eq_true_2 by eauto.
      apply (unlink_bind path f k w1). exact Hfs.
    - congruence.
    - rewrite bool_decide_eq_false_2 by (intros [? ?]; discriminate).
      rewrite mret_bind. unfold set_fs. rewrite delete_id by exact Hfs.
      reflexivity. }
  rewrite Hstart. clear Hstart.
  set (w2 := set_fs (delete path (fs w)) w1).
  rewrite (bind_run (connect path) _ w2
             {| conn_path := path; conn_db := empty_database;
                in_transaction := false; cursor_rows := [] |} w2).
  2: { unfold connect. subst w2. cbn [fs set_fs]. rewrite lookup_delete_eq.
       reflexivity. }
  erewrite bind_run by (apply execute_run; reflexivity).
  cbn [conn_path conn_db in_transaction is_dml orb negb].
  erewrite bind_run by (apply execute_run; reflexivity).
  cbn [conn_path conn_db in_transaction is_dml orb negb].
  erewrite bind_run by reflexivity.
  change (clock (log_stmt _ _)) with (clock w).
  erewrite bind_run.
  2: { apply execute_run. unfold exec, insert_metadata.
       cbn [conn_db set_metadata metadata relation mbind result_bind bind_param].
       rewrite Hclean. reflexivity. }
  cbn [conn_path conn_db in_transaction is_dml orb negb].
  erewrite bind_run by (apply execute_run; reflexivity).
  cbn [conn_path conn_db in_transaction is_dml orb negb].
  erewrite bind_run by (apply execute_run; reflexivity).
  cbn [conn_path conn_db in_transaction is_dml orb negb].
  erewrite bind_run by (apply execute_run; reflexivity).
  cbn [conn_path conn_db in_transaction is_dml orb negb].
  erewrite bind_run by reflexivity.
  erewrite bind_run.
  2: { apply (for_each_insert_run records params); [exact Hps|reflexivity..|].
       exact Hins. }
  cbn [conn_path app].
  erewrite bind_run by (apply execute_run; reflexivity).
  cbn [conn_path conn_db in_transaction is_dml orb negb].
  erewrite bind_run by (apply execute_run; reflexivity).
  cbn [conn_path conn_db in_transaction is_dml orb negb].
  erewrite bind_run by (apply execute_run; reflexivity).
  cbn [conn_path conn_db in_transaction is_dml orb negb].
  erewrite bind_run by (apply execute_run; reflexivity).
  cbn [conn_path conn_db in_transaction is_dml orb negb].
  erewrite bind_run by reflexivity.
  cbn [conn_path conn_db in_transaction is_dml orb negb cursor_rows].
  erewrite bind_run by (apply execute_run; reflexivity).
  cbn [conn_path conn_db in_transaction is_dml orb negb cursor_rows].
  erewrite bind_run by reflexivity.
  rewrite print_bind. erewrite bind_run by reflexivity.
  erewrite bind_run.
  2: { unfold stat_size. cbn [fs store set_fs log_stmt logged].
       rewrite lookup_insert_eq. reflexivity. }
  unfold print. f_equal. subst w2 w1.
  cbn [fs network requests clock sql_trace stdout store set_fs log_stmt logged
       add_trigger set_fts before_load metadata collections collections_fts
       triggers app].
  f_equal.
  - rewrite !insert_insert_eq, insert_delete_eq. reflexivity.
  - unfold statements, prelude, epilogue. rewrite <- !app_assoc. reflexivity.
  - rewrite <- !app_assoc. reflexivity.
Qed.

Lemma replay_prelude_clean built_at db :
  replay (prelude built_at) empty_database = Ok db ->
  existsb is_surrogate built_at = false.
Proof.
  unfold prelude. simpl. unfold insert_metadata. simpl.
  destruct (existsb is_surrogate built_at); simpl; congruence.
Qed.

Lemma build_not_directory path colls w w' :
  create_database path colls w = (Ok tt, w') -> fs w !! path <> Some Directory.
Proof.
  unfold create_database. rewrite print_bind, path_exists_bind. intros Hrun Hdir.
  cbn [fs] in Hrun. rewrite Hdir in Hrun.
  rewrite bool_decide_eq_true_2 in Hrun by eauto.
  apply bind_ok in Hrun as ([] & w1 & Hunlink & _).
  unfold unlink in Hunlink. cbn [fs] in Hunlink. rewrite Hdir in Hunlink.
  discriminate.
Qed.



End Success.


Lemma confined_refl path w : confined path w w.
Proof. repeat split; reflexivity. Qed.

Lemma confined_trans path w1 w2 w3 :
  confined path w1 w2 -> confined path w2 w3 -> confined path w1 w3.
Proof.
  intros (N1 & R1 & C1 & F1 & S1 & O1) (N2 & R2 & C2 & F2 & S2 & O2).
  repeat split; try congruence.
  - intros q Hq. rewrite F2, F1 by exact Hq. reflexivity.
  - etransitivity; eassumption.
  - etransitivity; eassumption.
Qed.

Lemma keeps_bind {A B} path (m : M A) (k : A -> M B) (Q : A -> Prop)
    (R : B -> Prop) :
  keeps path m Q -> (forall a, Q a -> keeps path (k a) R) ->
  keeps path (m ≫= k) R.
Proof.
  intros Hm Hk w r w' Hrun. unfold mbind, M_bind in Hrun.
  destruct (m w) as [[a|e] w1] eqn:Hmw.
  - destruct (Hm _ _ _ Hmw) as [Hc HQ].
    destruct (Hk a (HQ a eq_refl) _ _ _ Hrun) as [Hc' HR].
    split; [eapply confined_trans; eassumption|exact HR].
  - injection Hrun as <- <-. destruct (Hm _ _ _ Hmw) as [Hc _].
    split; [exact Hc|discriminate].
Qed.

Lemma keeps_weaken {A} path (m : M A) (Q Q' : A -> Prop) :
  keeps path m Q -> (forall a, Q a -> Q' a) -> keeps path m Q'.
Proof.
  intros Hm HQ w r w' Hrun. destruct (Hm _ _ _ Hrun) as [Hc Hq].
  split; [exact Hc|]. intros a ->. apply HQ, Hq. reflexivity.
Qed.

Lemma keeps_pure {A} path (r : result A) : keeps path (lift r) (fun _ => True).
Proof.
  intros w r' w' [= <- <-]. split; [apply confined_refl|trivial].
Qed.

Lemma keeps_print path l : keeps path (print l) (fun _ => True).
Proof.
  intros w r w' [= <- <-]. split; [|trivial].
  repeat split; try reflexivity. cbn [stdout]. apply prefix_app_r. reflexivity.
Qed.

Lemma confined_store path db w : confined path w (store path db w).
Proof.
  repeat split; try reflexivity.
  intros q Hq. unfold store, set_fs. cbn [fs].
  rewrite lookup_insert_ne by congruence. reflexivity.
Qed.

Lemma confined_log path s w : confined path w (log_stmt s w).
Proof.
  repeat split; try reflexivity. cbn [sql_trace log_stmt].
  apply prefix_app_r. reflexivity.
Qed.

Section Frame.
Context `{Engine} `{Converter}.

Lemma keeps_execute path s conn :
  conn_path conn = path ->
  keeps path (execute s conn) (fun c => conn_path c = path).
Proof.
  intros Hp w r w' Hrun. unfold execute in Hrun.
  destruct (exec s (conn_db conn)) as [[db' rows]|e].
  - injection Hrun as <- <-. split.
    + rewrite Hp.
      destruct (match s with SelectCountCollections => false | _ => _ end).
      * eapply confined_trans; [apply confined_log|apply confined_store].
      * apply confined_log.
    + intros a [= <-]. exact Hp.
  - injection Hrun as <- <-. split; [apply confined_log|discriminate].
Qed.

Lemma keeps_for_each path items : forall conn,
  conn_path conn = path ->
  keeps path (for_each insert_record items conn) (fun c => conn_path c = path).
Proof.
  induction items as [|c items IH]; intros conn Hp.
  - intros w r w' [= <- <-]. split; [apply confined_refl|].
    intros a [= <-]. exact Hp.
  - cbn [for_each]. eapply keeps_bind; [|intros a Ha; apply IH, Ha].
    unfold insert_record. eapply keeps_bind; [apply keeps_pure|].
    intros p _. apply keeps_execute, Hp.
Qed.


End Frame.

Section Abort.
Context `{Engine} `{Converter}.

Lemma bind_raise {A B} (m : M A) (k : A -> M B) w e w1 :
  m w = (Raised e, w1) -> (m ≫= k) w = (Raised e, w1).
Proof. intros Hm. unfold mbind, M_bind. rewrite Hm. reflexivity. Qed.

(** The loop stops at the first record whose parameters cannot be
    computed. *)
Lemma for_each_insert_raise good : forall params bad rest e conn w db',
  Forall2 (fun c p => record_params c = Ok p) good params ->
  in_transaction conn = true ->
  replay (map InsertCollection params) (conn_db conn) = Ok db' ->
  record_params bad = Raised e ->
  for_each insert_record (good ++ bad :: rest) conn w
  = (Raised e, logged (map InsertCollection params) w).
Proof.
  induction good as [|c good IH]; intros params bad rest e conn w db' Hps Htx Hrun Hbad.
  - apply Forall2_nil_inv_l in Hps as ->. cbn [app for_each].
    apply bind_raise. unfold insert_record. apply bind_raise.
    unfold lift. rewrite Hbad. unfold logged. cbn [map]. rewrite app_nil_r.
    destruct w; reflexivity.
  - apply Forall2_cons_inv_l in Hps as (p & ps & Hp & Hps & ->).
    simpl in Hrun. apply result_bind_ok in Hrun as ([db1 out] & Hexec & Hrun).
    pose proof Hexec as Hout. simpl in Hout.
    apply result_bind_ok in Hout as (? & _ & [= _ <-]).
    assert (Hstep : insert_record c conn w
              = (Ok {| conn_path := conn_path conn; conn_db := db1;
                       in_transaction := true; cursor_rows := [] |},
                 log_stmt (InsertCollection p) w)).
    { unfold insert_record, mbind, M_bind, lift. rewrite Hp.
      rewrite (execute_run (InsertCollection p) conn w db1 [] Hexec), Htx.
      reflexivity. }
    cbn [app for_each]. rewrite (bind_run _ _ _ _ _ Hstep).
    rewrite (IH ps bad rest e
               {| conn_path := conn_path conn; conn_db := db1;
                  in_transaction := true; cursor_rows := [] |}
               (log_stmt (InsertCollection p) w) db' Hps eq_refl Hrun Hbad).
    f_equal. unfold logged, log_stmt.
    cbn [fs network requests clock sql_trace stdout map].
    rewrite <- app_assoc. reflexivity.
Qed.

(** The build up to the loop, and what the file holds when the loop or
    the iteration raises: the first CREATE TABLE was written at once, and
    everything after it belongs to a transaction that is never
    committed. *)
Lemma build_aborts path colls w e :
  fs w !! path <> Some Directory ->
  existsb is_surrogate (clock w) = false ->
  (forall conn w1,
     conn_db conn = before_load (metadata_rows (clock w)) [] ->
     in_transaction conn = true ->
     exists w2,
       (lift (py_iter colls) ≫= fun items => for_each insert_record items conn) w1
       = (Raised e, w2) /\ fs w2 = fs w1) ->
  exists w',
    create_database path colls w = (Raised e, w') /\
    database_at w' path = Some (set_metadata [] empty_database).
Proof.
  intros Hdir Hclean Hloop.
  unfold create_database. rewrite print_bind, path_exists_bind.
  cbn [fs].
  set (w1 := {| fs := fs w; network := network w; requests := requests w;
                clock := clock w; sql_trace := sql_trace w;
                stdout := stdout w ++ [Creating path] |}).
  assert (Hstart : forall {B} (k : unit -> M B),
            ((if bool_decide (is_Some (fs w !! path)) then unlink path
              else mret tt) ≫= k) w1
            = k tt (set_fs (delete path (fs w)) w1)).
  { intros B k. destruct (fs w !! path) as [[f|]|] eqn:Hfs.
    - rewrite bool_decide_eq_true_2 by eauto.
      apply (unlink_bind path f k w1). exact Hfs.
    - congruence.
    - rewrite bool_decide_eq_false_2 by (intros [? ?]; discriminate).
      rewrite mret_bind. unfold set_fs. rewrite delete_id by exact Hfs.
      reflexivity. }
  rewrite Hstart. clear Hstart.
  set (w2 := set_fs (delete path (fs w)) w1).
  rewrite (bind_run (connect path) _ w2
             {| conn_path := path; conn_db := empty_database;
                in_transaction := false; cursor_rows := [] |} w2).
  2: { unfold connect. subst w2. cbn [fs set_fs]. rewrite lookup_delete_eq.
       reflexivity. }
  erewrite bind_run by (apply execute_run; reflexivity).
  cbn [conn_path conn_db in_transaction is_dml orb negb].
  erewrite bind_run by (apply execute_run; reflexivity).
  cbn [conn_path conn_db in_transaction is_dml orb negb].
  erewrite bind_run by reflexivity.
  change (clock (log_stmt _ _)) with (clock w).
  erewrite bind_run.
  2: { apply execute_run. unfold exec, insert_metadata.
       cbn [conn_db set_metadata metadata relation mbind result_bind bind_param].
       rewrite Hclean. reflexivity. }
  cbn [conn_path conn_db in_transaction is_dml orb negb].
  erewrite bind_run by (apply execute_run; reflexivity).
  cbn [conn_path conn_db in_transaction is_dml orb negb].
  erewrite bind_run by (apply execute_run; reflexivity).
  cbn [conn_path conn_db in_transaction is_dml orb negb].
  erewrite bind_run by (apply execute_run; reflexivity).
  cbn [conn_path conn_db in_transaction is_dml orb negb].
  match goal with
  | |- context [for_each insert_record _ ?c] =>
      match goal with
      | |- exists w', ?m ?wl = _ /\ _ =>
          destruct (Hloop c wl eq_refl eq_refl) as (wf & Hraise & Hfs)
      end
  end.
  exists wf. split.
  - unfold mbind, M_bind in Hraise |- *. unfold lift in Hraise |- *.
    destruct (py_iter colls) as [items|e'].
    + rewrite Hraise. reflexivity.
    + injection Hraise as <- <-. reflexivity.
  - unfold database_at. rewrite Hfs. subst w2 w1.
    cbn [fs store set_fs log_stmt]. rewrite lookup_insert_eq. reflexivity.
Qed.

(** X19. A record whose parameters cannot be computed (it is not an
    object, its description is neither a string nor falsy, or the
    converter raises on it) aborts the build with that exception, even
    when every record before it loads.  Nothing that was inserted is
    kept, and the previous file is gone: the output path holds a
    database with an empty metadata relation and nothing else. *)
Theorem bad_record_aborts_the_build path good bad rest w w0 e :
  create_database path (PList good) w = (Ok tt, w0) ->
  record_params bad = Raised e ->
  exists w',
    create_database path (PList (good ++ bad :: rest)) w = (Raised e, w') /\
    database_at w' path
    = Some {| metadata := Some []; collections := None;
              collections_fts := None; triggers := [] |}.
Proof.
  intros Hgood Hbad.
  pose proof (build_not_directory _ _ _ _ Hgood) as Hdir.
  apply build_outcome in Hgood
    as (params & md & rows & Hps & _ & _ & _ & Hmid & _).
  apply replay_app_ok in Hmid as (mid & Hpre & Hins).
  pose proof (replay_prelude_clean _ _ Hpre) as Hclean.
  apply replay_prelude_metadata in Hpre. subst mid.
  apply build_aborts; [exact Hdir|exact Hclean|].
  intros conn w1 Hdb Htx. eexists. split.
  - rewrite (bind_run _ _ w1 (good ++ bad :: rest) w1) by reflexivity.
    rewrite <- Hdb in Hins.
    apply (for_each_insert_raise good params bad rest e conn w1 _ Hps Htx Hins Hbad).
  - reflexivity.
Qed.


End Abort.

Lemma html_to_markdown_result_is_trimmed_witness :
  @html_to_markdown sample_converter (PStr (lit " <p>hi</p> ")) = Ok (lit "hi") /\
  (forall c, head (lit "hi") = Some c -> is_space c = false) /\
  (forall c, last (lit "hi") = Some c -> is_space c = false).
Proof.
  assert (Hrun : @html_to_markdown sample_converter (PStr (lit " <p>hi</p> "))
                 = Ok (lit "hi")) by (vm_compute; reflexivity).
  split; [exact Hrun|].
  apply (@html_to_markdown_result_is_trimmed sample_converter _ _ Hrun).
Defined.

Lemma rows_mirror_records_witness :
  sample_build two_records sample_world
    = (Ok tt, (sample_build two_records sample_world).2) /\
  exists db rows,
    database_at (sample_build two_records sample_world).2 (lit "out.db") = Some db /\
    collections db = Some rows /\
    length rows = length two_records /\
    forall i c r, two_records !! i = Some c -> rows !! i = Some r ->
      rowid r = Z.of_nat (S i) /\
      (exists d, @html_to_markdown sample_converter (record_description c) = Ok d /\
                 description r = SqlText d) /\
      (forall key column s, (key, column) ∈ text_columns ->
         record_field c key = PStr s -> column r = SqlText s) /\
      (forall key column, (key, column) ∈ text_columns ->
         record_field c key = PNone -> column r = SqlNull) /\
      (forall z, record_field c (lit "subject_count") = PInt z ->
         subject_count r = @integer_affinity sample_engine (SqlInt z)).
Proof.
  assert (Hrun : sample_build two_records sample_world
                 = (Ok tt, (sample_build two_records sample_world).2))
    by (vm_compute; reflexivity).
  split; [exact Hrun|].
  apply (@rows_mirror_records sample_engine sample_converter
           (lit "out.db") two_records sample_world _ Hrun).
Defined.

Lemma duplicate_collection_id_is_rejected_witness :
  0 <> 1 /\
  twin_records !! 0 = Some (sample_record (lit "TCGA-A") (lit "<p>hi</p>")) /\
  twin_records !! 1 = Some (sample_record (lit "TCGA-A") []) /\
  record_field (sample_record (lit "TCGA-A") (lit "<p>hi</p>")) (lit "collection_id")
    = PStr (lit "TCGA-A") /\
  record_field (sample_record (lit "TCGA-A") []) (lit "collection_id")
    = PStr (lit "TCGA-A") /\
  (sample_build twin_records sample_world).1 <> Ok tt.
Proof.
  assert (H01 : 0 <> 1) by lia.
  assert (H0 : twin_records !! 0
               = Some (sample_record (lit "TCGA-A") (lit "<p>hi</p>")))
    by reflexivity.
  assert (H1 : twin_records !! 1 = Some (sample_record (lit "TCGA-A") []))
    by reflexivity.
  assert (Hi : record_field (sample_record (lit "TCGA-A") (lit "<p>hi</p>"))
                 (lit "collection_id") = PStr (lit "TCGA-A"))
    by (vm_compute; reflexivity).
  assert (Hj : record_field (sample_record (lit "TCGA-A") []) (lit "collection_id")
               = PStr (lit "TCGA-A"))
    by (vm_compute; reflexivity).
  repeat (split; [assumption|]).
  exact (@duplicate_collection_id_is_rejected sample_engine sample_converter
           (lit "out.db") twin_records sample_world 0 1 _ _ _ H01 H0 H1 Hi Hj).
Defined.

Lemma build_accepts_only_flat_records_witness :
  sample_build two_records sample_world
    = (Ok tt, (sample_build two_records sample_world).2) /\
  forall c, c ∈ two_records ->
    (exists entries, c = PDict entries) /\
    (py_truthy (record_description c) = false \/
     exists s, record_description c = PStr s) /\
    forall key, key ∈ field_keys -> bindable (record_field c key) = true.
Proof.
  assert (Hrun : sample_build two_records sample_world
                 = (Ok tt, (sample_build two_records sample_world).2))
    by (vm_compute; reflexivity).
  split; [exact Hrun|].
  apply (@build_accepts_only_flat_records sample_engine sample_converter
           (lit "out.db") two_records sample_world _ Hrun).
Defined.

Lemma metadata_records_the_build_witness :
  sample_build two_records sample_world
    = (Ok tt, (sample_build two_records sample_world).2) /\
  exists db,
    database_at (sample_build two_records sample_world).2 (lit "out.db") = Some db /\
    metadata db
      = Some [(SqlText (lit "schema_version"), SqlText (decimal SCHEMA_VERSION));
              (SqlText (lit "built_at"), SqlText (clock sample_world));
              (SqlText (lit "source_url"), SqlText API_URL)].
Proof.
  assert (Hrun : sample_build two_records sample_world
                 = (Ok tt, (sample_build two_records sample_world).2))
    by (vm_compute; reflexivity).
  split; [exact Hrun|].
  apply (@metadata_records_the_build sample_engine sample_converter
           (lit "out.db") two_records sample_world _ Hrun).
Defined.


Lemma insert_after_build_is_indexed_witness :
  sample_build two_records sample_world
    = (Ok tt, (sample_build two_records sample_world).2) /\
  exists db rows,
    database_at (sample_build two_records sample_world).2 (lit "out.db") = Some db /\
    collections db = Some rows /\
    forall p db' out, @exec sample_engine (InsertCollection p) db = Ok (db', out) ->
      exists row,
        rowid row = Z.of_nat (S (length rows)) /\
        collections db' = Some (rows ++ [row]) /\
        collections_fts db' = Some (map fts_projection (rows ++ [row])) /\
        triggers db' = triggers db.
Proof.
  assert (Hrun : sample_build two_records sample_world
                 = (Ok tt, (sample_build two_records sample_world).2))
    by (vm_compute; reflexivity).
  split; [exact Hrun|].
  apply (@insert_after_build_is_indexed sample_engine sample_converter
           (lit "out.db") two_records sample_world _ Hrun).
Defined.

Lemma delete_after_build_is_unindexed_witness :
  sample_build two_records sample_world
    = (Ok tt, (sample_build two_records sample_world).2) /\
  exists db rows,
    database_at (sample_build two_records sample_world).2 (lit "out.db") = Some db /\
    collections db = Some rows /\
    forall i old, rows !! i = Some old ->
      exists db',
        fire AfterDelete (Some old) None (set_collections (delete i rows) db)
          = Ok db' /\
        collections db' = Some (delete i rows) /\
        collections_fts db' = Some (map fts_projection (delete i rows)).
Proof.
  assert (Hrun : sample_build two_records sample_world
                 = (Ok tt, (sample_build two_records sample_world).2))
    by (vm_compute; reflexivity).
  split; [exact Hrun|].
  apply (@delete_after_build_is_unindexed sample_engine sample_converter
           (lit "out.db") two_records sample_world _ Hrun).
Defined.


Lemma bad_record_aborts_the_build_witness :
  sample_build two_records sample_world
    = (Ok tt, (sample_build two_records sample_world).2) /\
  @record_params sample_converter PNone = Raised AttributeError /\
  exists w',
    sample_build (two_records ++ PNone :: []) sample_world
      = (Raised AttributeError, w') /\
    database_at w' (lit "out.db")
    = Some {| metadata := Some []; collections := None;
              collections_fts := None; triggers := [] |}.
Proof.
  assert (Hrun : sample_build two_records sample_world
                 = (Ok tt, (sample_build two_records sample_world).2))
    by (vm_compute; reflexivity).
  assert (Hbad : @record_params sample_converter PNone = Raised AttributeError)
    by reflexivity.
  split; [exact Hrun|]. split; [exact Hbad|].
  apply (@bad_record_aborts_the_build sample_engine sample_converter
           (lit "out.db") two_records PNone [] sample_world _ _ Hrun Hbad).
Defined.

